(** * RentNest backend: listing store, query engine and login

    A shallow embedding of the Express route handlers of the RentNest
    backend (backend/routes/propertyRoutes.js, its earlier JSON-body variant,
    and the auth routes), together with the properties of the listing store
    and of the identity store that are checked against them.

    Documents are modelled the way the document store holds them: a property
    is a finite map from top-level path names to JSON values, the collection
    is a finite map from ids to documents.  A handler is a function from the
    request (and the collection) to the response (and the new collection);
    an exception raised inside a handler's [try] block is a [Throw] that the
    handler's [catch] turns into the 500 response of the source.

    A handler is entered after its middleware: [req.user] is the caller that
    [protect] and [isOwner] have let through.  What the platform provides
    (the pattern engine, [JSON.parse], the image host, the password check
    and the token issuer) and the validators of the Property schema are
    interfaces; the handlers are defined over any implementation of them.
    The public reads carry documents with their owner reference as it is
    stored: the replacement of that reference by fields of the owner's
    account ([populate]) is left out, and what is stated of a document read
    is stated up to its owner. *)

From Stdlib Require Import ZArith Lia String Ascii List.
From stdpp Require Import base option list strings gmap fin_maps sorting.

Set Warnings "-register-all".
Local Open Scope string_scope.
Local Open Scope Z_scope.

(** ** JSON values and JavaScript truthiness *)

Inductive Json : Type :=
| JNull
| JBool (b : bool)
| JNum (n : Z)
| JStr (s : string)
| JArr (items : list Json)
| JObj (members : list (string * Json)).

(** [ToBoolean] on a JSON value. *)
Definition truthy (v : Json) : bool :=
  match v with
  | JNull => false
  | JBool b => b
  | JNum n => negb (n =? 0)
  | JStr s => negb (String.eqb s "")
  | JArr _ => true
  | JObj _ => true
  end.

(** A value that may be [undefined]: [None] is [undefined], which is falsy. *)
Definition truthy_opt (v : option Json) : bool :=
  match v with
  | Some v => truthy v
  | None => false
  end.

(** A string that may be [undefined]; the empty string is falsy too. *)
Definition truthy_str (s : option string) : bool :=
  match s with
  | Some s => negb (String.eqb s "")
  | None => false
  end.

(** Equality of JSON values, as the store compares a field with a filter
    value. *)
Fixpoint json_eqb (a b : Json) : bool :=
  match a, b with
  | JNull, JNull => true
  | JBool x, JBool y => Bool.eqb x y
  | JNum x, JNum y => x =? y
  | JStr x, JStr y => String.eqb x y
  | JArr xs, JArr ys =>
      (fix go (xs ys : list Json) : bool :=
         match xs, ys with
         | [], [] => true
         | x :: xs, y :: ys => json_eqb x y && go xs ys
         | _, _ => false
         end) xs ys
  | JObj xs, JObj ys =>
      (fix go (xs ys : list (string * Json)) : bool :=
         match xs, ys with
         | [], [] => true
         | (k, x) :: xs, (k', y) :: ys =>
             String.eqb k k' && json_eqb x y && go xs ys
         | _, _ => false
         end) xs ys
  | _, _ => false
  end.

(** ** Documents and dotted paths *)

Abbreviation Doc := (gmap string Json).
Abbreviation Store := (gmap string Doc).

Fixpoint member (k : string) (ms : list (string * Json)) : option Json :=
  match ms with
  | [] => None
  | (k', v) :: ms => if String.eqb k k' then Some v else member k ms
  end.

Fixpoint descend (v : Json) (path : list string) : option Json :=
  match path with
  | [] => Some v
  | k :: rest =>
      match v with
      | JObj ms =>
          match member k ms with
          | Some v' => descend v' rest
          | None => None
          end
      | _ => None
      end
  end.

(** ['location.division'] is the path [location], then [division]. *)
Fixpoint split_dot (s : string) : list string :=
  match s with
  | EmptyString => [EmptyString]
  | String c rest =>
      if Ascii.eqb c "." then EmptyString :: split_dot rest
      else match split_dot rest with
           | [] => [String c EmptyString]
           | seg :: segs => String c seg :: segs
           end
  end.

Definition get_path (d : Doc) (path : string) : option Json :=
  match split_dot path with
  | [] => None
  | k :: rest =>
      match d !! k with
      | Some v => descend v rest
      | None => None
      end
  end.

(** ** Exceptions and the handlers' [try]/[catch] *)

Inductive ErrorKind :=
| CastError        (* Mongoose: a value cannot be cast to the path's type *)
| ValidationError  (* Mongoose: a schema validator rejects the document *)
| MongoServerError (* the store rejects the command *)
| SyntaxError      (* JSON.parse or new RegExp on a malformed text *)
| TypeError        (* a property of undefined is read *)
| UploadError.     (* the image host reports an error *)

Record JsError := mkError { kind : ErrorKind; error_message : string }.

Inductive Result (A : Type) : Type :=
| Ok (a : A)
| Throw (e : JsError).
Arguments Ok {A} a.
Arguments Throw {A} e.

Definition bind {A B} (m : Result A) (k : A → Result B) : Result B :=
  match m with
  | Ok a => k a
  | Throw e => Throw e
  end.

Notation "'let*' x ':=' m 'in' k" := (bind m (fun x => k))
  (at level 10, x pattern, m at level 100, k at level 200).

(** ** Responses *)

Inductive JsNumber :=
| Num (n : Z)
| Infinity
| NaN.

Inductive Data :=
| NoData
| DProperty (id : string) (property : Doc)
| DProperties (count : nat) (total : nat) (totalPages : JsNumber)
    (currentPage : Z) (properties : list (string * Doc))
| DUser (id fullName : string) (email mobile : option string)
    (accountType subscription : string) (token : string).

Record Response := mkResponse {
  status : nat;
  success : bool;
  message : option string;
  data : Data
}.

Definition fail (code : nat) (msg : string) : Response :=
  mkResponse code false (Some msg) NoData.

(** [message: error.message || 'Server error'] *)
Definition message_or (e : JsError) (dflt : string) : string :=
  if String.eqb (error_message e) "" then dflt else error_message e.

(** ** The store's primitives used by the handlers *)

Definition is_hex (c : ascii) : bool :=
  let n := nat_of_ascii c in
  ((48 <=? n) && (n <=? 57) || (97 <=? n) && (n <=? 102)
   || (65 <=? n) && (n <=? 70))%nat.

(** An id is cast to an ObjectId before it reaches the collection: the
    24-digit hexadecimal form is accepted (the raw 12-byte form, which some
    versions of the driver take as well, is left out).  The collection is
    keyed by the lower-case form in which the store prints an id; the lookup
    below takes the id as it is written, so it follows the store only for
    ids written in that form. *)
Definition isValidObjectId (id : string) : bool :=
  (String.length id =? 24)%nat && forallb is_hex (list_ascii_of_string id).

Definition castObjectId (id : string) : Result string :=
  if isValidObjectId id then Ok id
  else Throw (mkError CastError "Cast to ObjectId failed").

(** [Property.findById(id)]: [null] when no document has the id; a
    [CastError] (of kind ['ObjectId']) when the id is malformed. *)
Definition findById (id : string) (store : Store) : Result (option Doc) :=
  let* oid := castObjectId id in
  Ok (store !! oid).

(** [property.owner.toString()]: the owner reference is held as the
    hexadecimal string of the user's id. *)
Definition owner_toString (property : Doc) : Result string :=
  match property !! "owner" with
  | Some (JStr o) => Ok o
  | _ => Throw (mkError TypeError "Cannot read properties of undefined")
  end.

(** [property.deleteOne()] *)
Definition deleteOne (id : string) (store : Store) : Store := delete id store.

(** [property.save()] after an assignment to the loaded document. *)
Definition save (id : string) (property : Doc) (store : Store) : Store :=
  <[id := property]> store.

(** ** GET /api/properties/:id *)

Definition getProperty_try (id : string) (store : Store) : Result Response :=
  let* found := findById id store in
  match found with
  | None => Ok (fail 404 "Property not found")
  | Some property => Ok (mkResponse 200 true None (DProperty id property))
  end.

(** The [catch] block of this handler looks at [error.kind]: a malformed id
    is answered like an unknown one. *)
Definition getProperty (id : string) (store : Store) : Response :=
  match getProperty_try id store with
  | Ok response => response
  | Throw e =>
      match kind e with
      | CastError => fail 404 "Property not found"
      | _ => fail 500 "Server error"
      end
  end.

(** ** DELETE /api/properties/:id *)

Definition deleteProperty_try (user_id id : string) (store : Store)
  : Result (Response * Store) :=
  let* found := findById id store in
  match found with
  | None => Ok (fail 404 "Property not found", store)
  | Some property =>
      let* o := owner_toString property in
      if negb (String.eqb o user_id)
      then Ok (fail 403 "You are not authorized to delete this property", store)
      else Ok (mkResponse 200 true (Some "Property deleted successfully") NoData,
               deleteOne id store)
  end.

Definition deleteProperty (user_id id : string) (store : Store)
  : Response * Store :=
  match deleteProperty_try user_id id store with
  | Ok r => r
  | Throw _ => (fail 500 "Server error", store)
  end.

(** ** PATCH /api/properties/:id/toggle-availability *)

(** [!property.isAvailable], read on the loaded document.  Modelled from the
    spec (availability flag, default true): a document stored without the
    flag is loaded with the default of the schema, so its negation is
    [false]; a stored flag is read as it is. *)
Definition not_isAvailable (property : Doc) : bool :=
  negb (truthy_opt (match property !! "isAvailable" with
                    | Some flag => Some flag
                    | None => Some (JBool true)
                    end)).

Definition toggleAvailability_try (user_id id : string) (store : Store)
  : Result (Response * Store) :=
  let* found := findById id store in
  match found with
  | None => Ok (fail 404 "Property not found", store)
  | Some property =>
      let* o := owner_toString property in
      if negb (String.eqb o user_id)
      then Ok (fail 403 "You are not authorized to update this property", store)
      else
        let property := <["isAvailable" := JBool (not_isAvailable property)]> property in
        let store := save id property store in
        Ok (mkResponse 200 true
              (Some ("Property marked as " ++
                     (if truthy_opt (property !! "isAvailable")
                      then "available" else "unavailable")))
              (DProperty id property),
            store)
  end.

Definition toggleAvailability (user_id id : string) (store : Store)
  : Response * Store :=
  match toggleAvailability_try user_id id store with
  | Ok r => r
  | Throw _ => (fail 500 "Server error", store)
  end.

(** ** The Property schema *)

(** Modelled from the spec: the Property schema of models/Property.js, which
    is not among the sources.  Section 3 of the specification lists the
    attributes of a property, says that the owner is immutable once set and
    that the availability flag defaults to true; section 4.2 lists the
    required attributes.  The shape rules of the individual paths are not
    given and are left to [valid_at]. *)
Definition schema_paths : list string :=
  ["owner"; "title"; "description"; "propertyType"; "location"; "rent";
   "features"; "amenities"; "photos"; "contact"; "terms"; "isAvailable";
   "createdAt"].

Definition required_paths : list string :=
  ["title"; "description"; "propertyType"; "location"; "rent"; "contact"].

Definition immutable_paths : list string := ["owner"].

Definition default_at (now : Z) (path : string) : option Json :=
  if String.eqb path "isAvailable" then Some (JBool true)
  else if String.eqb path "createdAt" then Some (JNum now)
  else None.

(** The validators of the schema's paths: [valid_at path v] says that [v] is
    an acceptable value of [path]. *)
Class Schema := { valid_at : string → Json → bool }.

Definition in_list (k : string) (ks : list string) : bool :=
  existsb (String.eqb k) ks.

(** What the driver generates for a new document: its id and the clock. *)
Record Env := mkEnv { newId : string; now : Z }.

Definition validation_failed (path : string) : JsError :=
  mkError ValidationError ("Property validation failed: " ++ path).

(** One path of a new document: the given value when it is valid, the
    default when the path is absent and has one. *)
Definition build_path `{Schema} (now : Z) (raw : Doc) (path : string) (d : Doc)
  : Result Doc :=
  match raw !! path with
  | Some v =>
      if valid_at path v then Ok (<[path := v]> d)
      else Throw (validation_failed path)
  | None =>
      if in_list path required_paths then Throw (validation_failed path)
      else match default_at now path with
           | Some v => Ok (<[path := v]> d)
           | None => Ok d
           end
  end.

Fixpoint build_doc `{Schema} (now : Z) (raw : Doc) (paths : list string) (d : Doc)
  : Result Doc :=
  match paths with
  | [] => Ok d
  | path :: paths =>
      let* d := build_path now raw path d in
      build_doc now raw paths d
  end.

(** [Property.create(raw)]: the document is validated against the schema,
    then inserted under a fresh id. *)
Definition Property_create `{Schema} (env : Env) (raw : Doc) (store : Store)
  : Result (string * Doc * Store) :=
  let* d := build_doc (now env) raw schema_paths ∅ in
  match store !! newId env with
  | Some _ => Throw (mkError MongoServerError "E11000 duplicate key error")
  | None => Ok (newId env, d, <[newId env := d]> store)
  end.

(** The paths of an update document that reach the store: unknown paths are
    dropped (strict mode), immutable paths are dropped. *)
Definition settable (path : string) : bool :=
  in_list path schema_paths && negb (in_list path immutable_paths).

Definition apply_set (d : Doc) (set : list (string * Json)) : Doc :=
  foldl (λ d kv, <[kv.1 := kv.2]> d) d set.

(** [Property.findByIdAndUpdate(id, update, { new: true, runValidators: true })] *)
Definition findByIdAndUpdate `{Schema} (id : string) (update : list (string * Json))
    (store : Store) : Result (option Doc * Store) :=
  let* oid := castObjectId id in
  let set := List.filter (λ kv, settable kv.1) update in
  match List.find (λ kv, negb (valid_at kv.1 kv.2)) set with
  | Some kv => Throw (validation_failed kv.1)
  | None =>
      match store !! oid with
      | None => Ok (None, store)
      | Some d =>
          let d' := apply_set d set in
          Ok (Some d', <[oid := d']> store)
      end
  end.

(** ** PUT /api/properties/:id *)

Definition updateProperty_try `{Schema} (user_id id : string)
    (body : list (string * Json)) (store : Store) : Result (Response * Store) :=
  let* found := findById id store in
  match found with
  | None => Ok (fail 404 "Property not found", store)
  | Some property =>
      let* o := owner_toString property in
      if negb (String.eqb o user_id)
      then Ok (fail 403 "You are not authorized to update this property", store)
      else
        let* (property, store) := findByIdAndUpdate id body store in
        Ok (mkResponse 200 true (Some "Property updated successfully")
              (match property with
               | Some p => DProperty id p
               | None => NoData
               end),
            store)
  end.

Definition updateProperty `{Schema} (user_id id : string)
    (body : list (string * Json)) (store : Store) : Response * Store :=
  match updateProperty_try user_id id body store with
  | Ok r => r
  | Throw e => (fail 500 (message_or e "Server error"), store)
  end.

(** ** POST /api/properties (multipart form with images) *)

(** [JSON.parse] on a text: [None] is the [SyntaxError] it throws. *)
Class JsonParser := { JSON_parse : string → option Json }.

(** A file kept in memory by the multipart middleware. *)
Record File := mkFile { originalname : string; buffer : string }.

(** [cloudinary.uploader.upload_stream({ folder }, callback)] fed with a
    buffer: the [secure_url] of the result, or [None] when the callback
    receives an error. *)
Class ImageHost := { upload_stream : string → string → option string }.

Inductive Event :=
| Uploaded (file : File) (secure_url : string)
| UploadFailed (file : File)
| Persisted (id : string).

Module Form.
(** The text fields of the form: each is a string or [undefined]. *)
Record t := mk {
  title : option string;
  description : option string;
  propertyType : option string;
  location : option string;
  rent : option string;
  features : option string;
  amenities : option string;
  contact : option string;
  terms : option string
}.
End Form.

(** [JSON.parse(field)]; an absent field is [undefined], whose text
    [undefined] is no JSON text. *)
Definition parse_field `{JsonParser} (field : option string) : Result Json :=
  match field with
  | None => Throw (mkError SyntaxError "undefined is not valid JSON")
  | Some text =>
      match JSON_parse text with
      | Some v => Ok v
      | None => Throw (mkError SyntaxError "Unexpected token in JSON")
      end
  end.

Definition photo (secure_url : string) : Json :=
  JObj [("url", JStr secure_url); ("caption", JStr "")].

(** The loop over [req.files]: each upload is awaited before the next one
    starts, and its photo is pushed onto [uploadedPhotos]. *)
Fixpoint upload_loop `{ImageHost} (files : list File) (uploadedPhotos : list Json)
    (log : list Event) : Result (list Json) * list Event :=
  match files with
  | [] => (Ok uploadedPhotos, log)
  | file :: files =>
      match upload_stream "rentnest/properties" (buffer file) with
      | Some secure_url =>
          upload_loop files (uploadedPhotos ++ [photo secure_url])%list
            (log ++ [Uploaded file secure_url])%list
      | None =>
          (Throw (mkError UploadError "upload failed"),
           (log ++ [UploadFailed file])%list)
      end
  end.

(** A property of an object literal: an [undefined] value sets nothing. *)
Definition set_opt (path : string) (v : option Json) (raw : Doc) : Doc :=
  match v with
  | Some v => <[path := v]> raw
  | None => raw
  end.

Definition parse_fields `{JsonParser} (form : Form.t)
  : Result (Json * Json * Json * Json * Json * Json) :=
  let* parsedLocation := parse_field (Form.location form) in
  let* parsedRent := parse_field (Form.rent form) in
  let* parsedFeatures := parse_field (Form.features form) in
  let* parsedAmenities := parse_field (Form.amenities form) in
  let* parsedContact := parse_field (Form.contact form) in
  let* parsedTerms := parse_field (Form.terms form) in
  Ok (parsedLocation, parsedRent, parsedFeatures, parsedAmenities,
      parsedContact, parsedTerms).

Definition createProperty_try `{Schema, JsonParser, ImageHost} (env : Env)
    (user_id : string) (form : Form.t) (files : list File) (store : Store)
  : Result (Response * Store) * list Event :=
  match parse_fields form with
  | Throw e => (Throw e, [])
  | Ok (parsedLocation, parsedRent, parsedFeatures, parsedAmenities,
        parsedContact, parsedTerms) =>
      if negb (truthy_str (Form.title form))
         || negb (truthy_str (Form.description form))
         || negb (truthy_str (Form.propertyType form))
         || negb (truthy parsedLocation)
         || negb (truthy parsedRent)
         || negb (truthy parsedContact)
      then (Ok (fail 400 "Please provide all required fields", store), [])
      else
        let '(uploaded, log) := upload_loop files [] [] in
        match uploaded with
        | Throw e => (Throw e, log)
        | Ok uploadedPhotos =>
            let raw : Doc :=
              set_opt "terms" (Some parsedTerms)
              (set_opt "contact" (Some parsedContact)
              (set_opt "photos" (Some (JArr uploadedPhotos))
              (set_opt "amenities" (Some parsedAmenities)
              (set_opt "features" (Some parsedFeatures)
              (set_opt "rent" (Some parsedRent)
              (set_opt "location" (Some parsedLocation)
              (set_opt "propertyType" (JStr <$> Form.propertyType form)
              (set_opt "description" (JStr <$> Form.description form)
              (set_opt "title" (JStr <$> Form.title form)
              (set_opt "owner" (Some (JStr user_id)) ∅)))))))))) in
            match Property_create env raw store with
            | Throw e => (Throw e, log)
            | Ok (id, property, store) =>
                (Ok (mkResponse 201 true (Some "Property created successfully")
                       (DProperty id property), store),
                 (log ++ [Persisted id])%list)
            end
        end
  end.

(** [upload.array('images', 5)] with [limits: { fileSize: 5 * 1024 * 1024 }]:
    the middleware passes at most five files of at most 5MB each on to the
    handler. *)
Definition upload_array (files : list File) : bool :=
  (length files <=? 5)%nat
  && forallb (λ file, (String.length (buffer file) <=? 5 * 1024 * 1024)%nat) files.

Definition createProperty `{Schema, JsonParser, ImageHost} (env : Env)
    (user_id : string) (form : Form.t) (files : list File) (store : Store)
  : Response * Store * list Event :=
  if upload_array files then
    match createProperty_try env user_id form files store with
    | (Ok (response, store), log) => (response, store, log)
    | (Throw e, log) => (fail 500 (message_or e "Server error"), store, log)
    end
  else (mkResponse 500 false None NoData, store, []).

(** ** POST /api/properties (JSON body, the variant without images) *)

Definition createPropertyFromJson_try `{Schema} (env : Env) (user_id : string)
    (body : list (string * Json)) (store : Store) : Result (Response * Store) :=
  let title := member "title" body in
  let description := member "description" body in
  let propertyType := member "propertyType" body in
  let location := member "location" body in
  let rent := member "rent" body in
  let features := member "features" body in
  let amenities := member "amenities" body in
  let photos := member "photos" body in
  let contact := member "contact" body in
  let terms := member "terms" body in
  if negb (truthy_opt title) || negb (truthy_opt description)
     || negb (truthy_opt propertyType) || negb (truthy_opt location)
     || negb (truthy_opt rent) || negb (truthy_opt contact)
  then Ok (fail 400 "Please provide all required fields", store)
  else
    let raw : Doc :=
      set_opt "terms" terms
      (set_opt "contact" contact
      (set_opt "photos" photos
      (set_opt "amenities" amenities
      (set_opt "features" features
      (set_opt "rent" rent
      (set_opt "location" location
      (set_opt "propertyType" propertyType
      (set_opt "description" description
      (set_opt "title" title
      (set_opt "owner" (Some (JStr user_id)) ∅)))))))))) in
    let* (id, property, store) := Property_create env raw store in
    Ok (mkResponse 201 true (Some "Property created successfully")
          (DProperty id property), store).

Definition createPropertyFromJson `{Schema} (env : Env) (user_id : string)
    (body : list (string * Json)) (store : Store) : Response * Store :=
  match createPropertyFromJson_try env user_id body store with
  | Ok r => r
  | Throw e => (fail 500 (message_or e "Server error"), store)
  end.

(** ** GET /api/properties: the filter built from the query string *)

(** [new RegExp(pattern, 'i')] and the store's unanchored match of a string
    field against a pattern.  [RegExp] is [None] when the constructor throws
    a [SyntaxError]. *)
Class RegExpEngine := {
  regex : Type;
  RegExp : string → option regex;
  regex_test : regex → string → bool
}.

Module Query.
(** [req.query].  A text parameter is a string or [undefined].  A numeric
    parameter carries the integer that [Number(...)] makes of its text
    (texts that are no integer numeral are outside the model).  [minRent],
    [maxRent] and [bedrooms] are [None] when the parameter is absent or
    empty, which is falsy; [page] and [limit] are [None] only when the
    parameter is absent, an empty one being [Some 0]. *)
Record t := mk {
  propertyType : option string;
  division : option string;
  district : option string;
  area : option string;
  minRent : option Z;
  maxRent : option Z;
  bedrooms : option Z;
  furnished : option string;
  search : option string;
  page : option Z;
  limit : option Z
}.
End Query.

(** The value of a text parameter when it is truthy. *)
Definition supplied (p : option string) : option string :=
  match p with
  | Some s => if String.eqb s "" then None else Some s
  | None => None
  end.

(** The conditions a filter document puts on a path. *)
Inductive Cond `{RegExpEngine} :=
| Equals (v : Json)
| Matches (r : regex)
| Between (gte lte : option Z)
| AnyOf (clauses : list (string * regex)).

Definition new_RegExp `{RegExpEngine} (pattern : string) : Result regex :=
  match RegExp pattern with
  | Some r => Ok r
  | None => Throw (mkError SyntaxError "Invalid regular expression")
  end.

Definition pattern_filter `{RegExpEngine} (param : option string) (path : string)
    (filter : gmap string Cond) : Result (gmap string Cond) :=
  match supplied param with
  | Some pattern =>
      let* r := new_RegExp pattern in
      Ok (<[path := Matches r]> filter)
  | None => Ok filter
  end.

Definition buildFilter `{RegExpEngine} (q : Query.t) : Result (gmap string Cond) :=
  let filter : gmap string Cond := {[ "isAvailable" := Equals (JBool true) ]} in
  let filter :=
    match supplied (Query.propertyType q) with
    | Some propertyType => <["propertyType" := Equals (JStr propertyType)]> filter
    | None => filter
    end in
  let* filter := pattern_filter (Query.division q) "location.division" filter in
  let* filter := pattern_filter (Query.district q) "location.district" filter in
  let* filter := pattern_filter (Query.area q) "location.area" filter in
  let filter :=
    if bool_decide (is_Some (Query.minRent q)) || bool_decide (is_Some (Query.maxRent q))
    then <["rent.amount" := Between (Query.minRent q) (Query.maxRent q)]> filter
    else filter in
  let filter :=
    match Query.bedrooms q with
    | Some bedrooms => <["features.bedrooms" := Equals (JNum bedrooms)]> filter
    | None => filter
    end in
  let filter :=
    match supplied (Query.furnished q) with
    | Some furnished => <["features.furnished" := Equals (JStr furnished)]> filter
    | None => filter
    end in
  match supplied (Query.search q) with
  | Some search =>
      let* in_title := new_RegExp search in
      let* in_description := new_RegExp search in
      Ok (<["$or" := AnyOf [("title", in_title); ("description", in_description)]]> filter)
  | None => Ok filter
  end.

(** ** The store's evaluation of a filter document *)

Definition matches_at `{RegExpEngine} (d : Doc) (path : string) (r : regex) : bool :=
  match get_path d path with
  | Some (JStr s) => regex_test r s
  | _ => false
  end.

Definition holds `{RegExpEngine} (d : Doc) (path : string) (c : Cond) : bool :=
  match c with
  | Equals v =>
      match get_path d path with
      | Some x => json_eqb x v
      | None => false
      end
  | Matches r => matches_at d path r
  | Between gte lte =>
      match get_path d path with
      | Some (JNum n) =>
          match gte with Some a => a <=? n | None => true end
          && match lte with Some b => n <=? b | None => true end
      | _ => false
      end
  | AnyOf clauses => existsb (λ c, matches_at d c.1 c.2) clauses
  end.

(** A document satisfies a filter when every condition of it holds. *)
Definition satisfies `{RegExpEngine} (filter : gmap string Cond) (d : Doc) : bool :=
  bool_decide (map_Forall (λ path c, holds d path c = true) filter).

(** [Property.find(filter)] *)
Definition find `{RegExpEngine} (filter : gmap string Cond) (store : Store)
  : list (string * Doc) :=
  List.filter (λ kd, satisfies filter kd.2) (map_to_list store).

(** [Property.countDocuments(filter)] *)
Definition countDocuments `{RegExpEngine} (filter : gmap string Cond) (store : Store)
  : nat :=
  length (find filter store).

Definition createdAt (d : Doc) : Z :=
  match d !! "createdAt" with
  | Some (JNum t) => t
  | _ => 0
  end.

(** [.sort({ createdAt: -1 })]: the most recent document first. *)
Definition newer_first (x y : string * Doc) : Prop :=
  createdAt y.2 ≤ createdAt x.2.

Global Instance newer_first_dec x y : Decision (newer_first x y) :=
  Z_le_dec (createdAt y.2) (createdAt x.2).

Definition sort_newest_first (l : list (string * Doc)) : list (string * Doc) :=
  merge_sort newer_first l.

(** [.skip(n)]: the store rejects a negative count. *)
Definition skip {A} (n : Z) (l : list A) : Result (list A) :=
  if n <? 0
  then Throw (mkError MongoServerError "Skip value must be non-negative")
  else Ok (drop (Z.to_nat n) l).

(** [.limit(n)]: to the store a limit of zero is no limit, and a negative
    limit is the limit of its absolute value. *)
Definition limit {A} (n : Z) (l : list A) : list A :=
  if n =? 0 then l else take (Z.to_nat (Z.abs n)) l.

(** [Math.ceil(total / limit)] on a count and an integer. *)
Definition ceil_div (total : nat) (n : Z) : JsNumber :=
  if n =? 0 then (if (total =? 0)%nat then NaN else Infinity)
  else Num (- ((- Z.of_nat total) `div` n)).

(** ** GET /api/properties *)

Definition listProperties_try `{RegExpEngine} (q : Query.t) (store : Store)
  : Result Response :=
  let page := default 1 (Query.page q) in
  let limit_ := default 10 (Query.limit q) in
  let* filter := buildFilter q in
  let skip_ := (page - 1) * limit_ in
  let* skipped := skip skip_ (sort_newest_first (find filter store)) in
  let properties := limit limit_ skipped in
  let total := countDocuments filter store in
  Ok (mkResponse 200 true None
        (DProperties (length properties) total (ceil_div total limit_) page
           properties)).

Definition listProperties `{RegExpEngine} (q : Query.t) (store : Store) : Response :=
  match listProperties_try q store with
  | Ok response => response
  | Throw _ => fail 500 "Server error"
  end.

(** The documents a response carries. *)
Definition listed (response : Response) : list (string * Doc) :=
  match data response with
  | DProperties _ _ _ _ properties => properties
  | _ => []
  end.

(** ** POST /api/auth/login *)

Module User.
Record t := mk {
  _id : string;
  fullName : string;
  email : option string;
  mobile : option string;
  password : string;
  accountType : string;
  isActive : bool;
  subscription : string
}.
End User.

(** [user.comparePassword(candidate)] against the stored credential, and
    [generateToken(user._id)]. *)
Class Credentials := {
  comparePassword : string → string → bool;
  generateToken : string → string
}.

(** [emailOrMobile.includes('@')] *)
Definition includes_at (s : string) : bool :=
  existsb (Ascii.eqb "@") (list_ascii_of_string s).

(** [User.findOne({ email })] and [User.findOne({ mobile })] *)
Definition findOne_email (e : string) (users : list User.t) : option User.t :=
  List.find (λ u, bool_decide (User.email u = Some e)) users.

Definition findOne_mobile (m : string) (users : list User.t) : option User.t :=
  List.find (λ u, bool_decide (User.mobile u = Some m)) users.

(** The identifier is routed by its form: with an [@] it is looked up as an
    email, without as a mobile number. *)
Definition find_user (emailOrMobile : string) (users : list User.t)
  : option User.t :=
  if includes_at emailOrMobile then findOne_email emailOrMobile users
  else findOne_mobile emailOrMobile users.

Definition login `{Credentials} (emailOrMobile password : option string)
    (users : list User.t) : Response :=
  match supplied emailOrMobile, supplied password with
  | Some emailOrMobile, Some password =>
      let user := find_user emailOrMobile users in
      match user with
      | None => fail 401 "Invalid credentials"
      | Some user =>
          let isPasswordMatch := comparePassword password (User.password user) in
          if negb isPasswordMatch then fail 401 "Invalid credentials"
          else if negb (User.isActive user)
          then fail 403 "Your account has been deactivated. Please contact support."
          else mkResponse 200 true (Some "Login successful")
                 (DUser (User._id user) (User.fullName user) (User.email user)
                    (User.mobile user) (User.accountType user)
                    (User.subscription user) (generateToken (User._id user)))
      end
  | _, _ => fail 400 "Please provide email/mobile and password"
  end.

(** ** GET /api/properties/my-properties *)

(** The body of this response: [{ success, count, data: { properties } }]. *)
Record OwnerListing := mkOwnerListing {
  listing_status : nat;
  listing_success : bool;
  listing_count : nat;
  listing_properties : list (string * Doc)
}.

(** [Property.find({ owner: req.user._id }).sort({ createdAt: -1 })]; nothing
    in the [try] block throws on a collection that is read. *)
Definition listMyProperties `{RegExpEngine} (user_id : string) (store : Store)
  : OwnerListing :=
  let properties :=
    sort_newest_first (find {[ "owner" := Equals (JStr user_id) ]} store) in
  mkOwnerListing 200 true (length properties) properties.

(** ** POST /api/auth/signup *)

Module Signup.
(** [req.body] of a signup: each member is a string or [undefined]. *)
Record t := mk {
  fullName : option string;
  email : option string;
  mobile : option string;
  password : option string;
  accountType : option string
}.
End Signup.

(** What the User model adds to a new user: the stored form of the
    password, the initial values of the paths the handler does not set, and
    the validators of the schema. *)
Class UserModel := {
  hashPassword : string → string;
  initial_isActive : bool;
  initial_subscription : string;
  user_valid : User.t → bool
}.

(** [User.create({ fullName, email: email || undefined,
    mobile: mobile || undefined, password, accountType })] under the id the
    driver generates. *)
Definition User_create `{UserModel} (newId : string)
    (fullName : string) (email mobile : option string)
    (password accountType : string) (users : list User.t)
  : Result (User.t * list User.t) :=
  let user :=
    User.mk newId fullName email mobile (hashPassword password) accountType
      initial_isActive initial_subscription in
  if user_valid user then Ok (user, (users ++ [user])%list)
  else Throw (mkError ValidationError "User validation failed").

Definition signup_try `{UserModel, Credentials} (newId : string) (body : Signup.t)
    (users : list User.t) : Result (Response * list User.t) :=
  match supplied (Signup.fullName body), supplied (Signup.password body),
        supplied (Signup.accountType body) with
  | Some fullName, Some password, Some accountType =>
      let email := supplied (Signup.email body) in
      let mobile := supplied (Signup.mobile body) in
      if negb (bool_decide (is_Some email)) && negb (bool_decide (is_Some mobile))
      then Ok (fail 400 "Please provide either email or mobile number", users)
      else
        match email ≫= (λ e, findOne_email e users) with
        | Some existingUser =>
            Ok (fail 400 "User with this email already exists", users)
        | None =>
            match mobile ≫= (λ m, findOne_mobile m users) with
            | Some existingUser =>
                Ok (fail 400 "User with this mobile number already exists", users)
            | None =>
                let* (user, users) :=
                  User_create newId fullName email mobile password accountType
                    users in
                let token := generateToken (User._id user) in
                Ok (mkResponse 201 true (Some "Account created successfully")
                      (DUser (User._id user) (User.fullName user)
                         (User.email user) (User.mobile user)
                         (User.accountType user) (User.subscription user) token),
                    users)
            end
        end
  | _, _, _ =>
      Ok (fail 400 "Please provide full name, password, and account type", users)
  end.

Definition signup `{UserModel, Credentials} (newId : string) (body : Signup.t)
    (users : list User.t) : Response * list User.t :=
  match signup_try newId body users with
  | Ok r => r
  | Throw e => (fail 500 (message_or e "Server error during signup"), users)
  end.

(** ** Containment without regard to case *)

Definition to_lower (c : ascii) : ascii :=
  let n := nat_of_ascii c in
  if ((65 <=? n) && (n <=? 90))%nat then ascii_of_nat (n + 32) else c.

Fixpoint lower (s : string) : string :=
  match s with
  | EmptyString => EmptyString
  | String c s => String (to_lower c) (lower s)
  end.

Fixpoint is_infix (needle hay : string) : bool :=
  String.prefix needle hay
  || match hay with
     | EmptyString => false
     | String _ hay => is_infix needle hay
     end.

(** [needle] occurs in [hay] as a substring, letters compared without
    regard to case. *)
Definition contains_ci (needle hay : string) : bool :=
  is_infix (lower needle) (lower hay).

(** ** Reference instances of the platform interfaces *)

(** A pattern engine for the fragment of patterns made of literal
    characters, the wildcard [.] and escaped syntax characters.  A pattern
    outside the fragment is rejected here; among those, an opening
    parenthesis that is never closed and a quantifier with nothing to repeat
    are the ones every engine rejects. *)
Module LiteralEngine.

Inductive atom :=
| Lit (c : ascii)
| AnyChar.

Definition syntax_character (c : ascii) : bool :=
  existsb (Ascii.eqb c) (list_ascii_of_string "^$\.*+?()[]{}|").

Fixpoint compile (pattern : string) : option (list atom) :=
  match pattern with
  | EmptyString => Some []
  | String c rest =>
      if Ascii.eqb c "\" then
        match rest with
        | String d rest' =>
            if syntax_character d
            then match compile rest' with
                 | Some atoms => Some (Lit d :: atoms)
                 | None => None
                 end
            else None
        | EmptyString => None
        end
      else if Ascii.eqb c "." then
        match compile rest with
        | Some atoms => Some (AnyChar :: atoms)
        | None => None
        end
      else if syntax_character c then None
      else match compile rest with
           | Some atoms => Some (Lit c :: atoms)
           | None => None
           end
  end.

Definition line_terminator (c : ascii) : bool :=
  Ascii.eqb c "010" || Ascii.eqb c "013".

Definition atom_matches (a : atom) (c : ascii) : bool :=
  match a with
  | Lit x => Ascii.eqb (to_lower x) (to_lower c)
  | AnyChar => negb (line_terminator c)
  end.

Fixpoint matches_here (atoms : list atom) (s : string) : bool :=
  match atoms, s with
  | [], _ => true
  | a :: atoms, String c s => atom_matches a c && matches_here atoms s
  | _ :: _, EmptyString => false
  end.

Fixpoint matches_somewhere (atoms : list atom) (s : string) : bool :=
  matches_here atoms s
  || match s with
     | EmptyString => false
     | String _ s => matches_somewhere atoms s
     end.

Definition engine : RegExpEngine :=
  {| regex := list atom; RegExp := compile; regex_test := matches_somewhere |}.

End LiteralEngine.

(** A parser for JSON texts without white space and without escapes in
    strings. *)
Module JsonText.

Definition quote : ascii := ascii_of_nat 34.

Definition is_digit (c : ascii) : bool :=
  let n := nat_of_ascii c in ((48 <=? n) && (n <=? 57))%nat.

Fixpoint digits (acc : Z) (cs : list ascii) : Z * list ascii :=
  match cs with
  | c :: cs' =>
      if is_digit c
      then digits (10 * acc + Z.of_nat (nat_of_ascii c - 48)) cs'
      else (acc, cs)
  | [] => (acc, [])
  end.

Fixpoint chars (acc : string) (cs : list ascii) : option (string * list ascii) :=
  match cs with
  | c :: cs' =>
      if Ascii.eqb c quote then Some (acc, cs')
      else if Ascii.eqb c "\" then None
      else chars (acc ++ String c EmptyString) cs'
  | [] => None
  end.

Definition literal (word : string) (v : Json) (cs : list ascii)
  : option (Json * list ascii) :=
  let w := list_ascii_of_string word in
  if bool_decide (take (length w) cs = w) then Some (v, drop (length w) cs)
  else None.

Fixpoint value (fuel : nat) (cs : list ascii) : option (Json * list ascii) :=
  match fuel with
  | O => None
  | S fuel =>
      match cs with
      | [] => None
      | c :: cs' =>
          if Ascii.eqb c "n" then literal "null" JNull cs
          else if Ascii.eqb c "t" then literal "true" (JBool true) cs
          else if Ascii.eqb c "f" then literal "false" (JBool false) cs
          else if Ascii.eqb c quote then
            match chars EmptyString cs' with
            | Some (s, rest) => Some (JStr s, rest)
            | None => None
            end
          else if Ascii.eqb c "-" then
            match cs' with
            | d :: _ =>
                if is_digit d
                then let '(n, rest) := digits 0 cs' in Some (JNum (- n), rest)
                else None
            | [] => None
            end
          else if is_digit c then
            let '(n, rest) := digits 0 cs in Some (JNum n, rest)
          else if Ascii.eqb c "[" then
            match cs' with
            | d :: rest =>
                if Ascii.eqb d "]" then Some (JArr [], rest)
                else match items fuel cs' with
                     | Some (vs, rest) => Some (JArr vs, rest)
                     | None => None
                     end
            | [] => None
            end
          else if Ascii.eqb c "{" then
            match cs' with
            | d :: rest =>
                if Ascii.eqb d "}" then Some (JObj [], rest)
                else match members fuel cs' with
                     | Some (ms, rest) => Some (JObj ms, rest)
                     | None => None
                     end
            | [] => None
            end
          else None
      end
  end
with items (fuel : nat) (cs : list ascii) : option (list Json * list ascii) :=
  match fuel with
  | O => None
  | S fuel =>
      match value fuel cs with
      | Some (v, c :: rest) =>
          if Ascii.eqb c "]" then Some ([v], rest)
          else if Ascii.eqb c "," then
            match items fuel rest with
            | Some (vs, rest) => Some (v :: vs, rest)
            | None => None
            end
          else None
      | _ => None
      end
  end
with members (fuel : nat) (cs : list ascii)
  : option (list (string * Json) * list ascii) :=
  match fuel with
  | O => None
  | S fuel =>
      match cs with
      | q :: cs' =>
          if Ascii.eqb q quote then
            match chars EmptyString cs' with
            | Some (k, colon :: rest) =>
                if Ascii.eqb colon ":" then
                  match value fuel rest with
                  | Some (v, c :: rest) =>
                      if Ascii.eqb c "}" then Some ([(k, v)], rest)
                      else if Ascii.eqb c "," then
                        match members fuel rest with
                        | Some (ms, rest) => Some ((k, v) :: ms, rest)
                        | None => None
                        end
                      else None
                  | _ => None
                  end
                else None
            | _ => None
            end
          else None
      | [] => None
      end
  end.

Definition parse (text : string) : option Json :=
  let cs := list_ascii_of_string text in
  match value (S (length cs)) cs with
  | Some (v, []) => Some v
  | _ => None
  end.

Definition parser : JsonParser := {| JSON_parse := parse |}.

(** A JSON string literal and a one-member object, as texts. *)
Definition str (s : string) : string :=
  String quote s ++ String quote EmptyString.

Definition obj1 (k : string) (v : string) : string :=
  "{" ++ str k ++ ":" ++ v ++ "}".

End JsonText.

(** A schema that checks the JSON type of each path. *)
Definition typed_schema : Schema :=
  {| valid_at path v :=
       if in_list path ["owner"; "title"; "description"; "propertyType"]
       then match v with JStr _ => true | _ => false end
       else if in_list path ["amenities"; "photos"]
       then match v with JArr _ => true | _ => false end
       else if String.eqb path "isAvailable"
       then match v with JBool _ => true | _ => false end
       else if String.eqb path "createdAt"
       then match v with JNum _ => true | _ => false end
       else match v with JObj _ => true | _ => false end |}.

(** An image host that refuses an empty buffer. *)
Definition test_host : ImageHost :=
  {| upload_stream folder buf :=
       if String.eqb buf "" then None
       else Some ("https://res.cloudinary.com/" ++ folder ++ "/" ++ buf) |}.

(** Credentials stored as a tagged copy of the password. *)
Definition test_credentials : Credentials :=
  {| comparePassword candidate stored := String.eqb ("hash:" ++ candidate) stored;
     generateToken id := "token:" ++ id |}.

(** ** Sample data *)

Definition alice : string := "64b7f3a2c9e1d4f5a6b7c8a1".
Definition bob : string := "64b7f3a2c9e1d4f5a6b7c8b2".
Definition flat_id : string := "64b7f3a2c9e1d4f5a6b7c801".

Definition flat : Doc :=
  list_to_map
    [("owner", JStr alice); ("title", JStr "Lakeview Apartment");
     ("description", JStr "Two rooms with a balcony");
     ("propertyType", JStr "apartment");
     ("location", JObj [("division", JStr "Dhaka"); ("district", JStr "Dhaka");
                        ("area", JStr "Gulshan")]);
     ("rent", JObj [("amount", JNum 3000)]);
     ("features", JObj [("bedrooms", JNum 2); ("furnished", JStr "furnished")]);
     ("amenities", JArr []); ("photos", JArr []);
     ("contact", JObj [("phone", JStr "01700000000")]);
     ("terms", JObj []);
     ("isAvailable", JBool true); ("createdAt", JNum 1700000000)].

Definition one_flat : Store := {[ flat_id := flat ]}.

Definition sample_env : Env := mkEnv "64b7f3a2c9e1d4f5a6b7c802" 1700000100.

Definition sample_form : Form.t :=
  Form.mk (Some "Lakeview Apartment") (Some "Two rooms with a balcony")
    (Some "apartment")
    (Some (JsonText.obj1 "division" (JsonText.str "Dhaka")))
    (Some (JsonText.obj1 "amount" "3000"))
    (Some (JsonText.obj1 "bedrooms" "2"))
    (Some "[]")
    (Some (JsonText.obj1 "phone" (JsonText.str "01700000000")))
    (Some "{}").

Definition sample_files : list File :=
  [mkFile "front.jpg" "front-bytes"; mkFile "kitchen.jpg" "kitchen-bytes"].

(** The same request without its location field. *)
Definition form_without_location : Form.t :=
  Form.mk (Form.title sample_form) (Form.description sample_form)
    (Form.propertyType sample_form) None (Form.rent sample_form)
    (Form.features sample_form) (Form.amenities sample_form)
    (Form.contact sample_form) (Form.terms sample_form).

Definition sample_body : list (string * Json) :=
  [("title", JStr "Lakeview Apartment");
   ("description", JStr "Two rooms with a balcony");
   ("propertyType", JStr "apartment");
   ("location", JObj [("division", JStr "Dhaka")]);
   ("rent", JObj [("amount", JNum 3000)]);
   ("contact", JObj [("phone", JStr "01700000000")]);
   ("owner", JStr bob)].

Definition sample_users : list User.t :=
  [User.mk alice "Alice" (Some "user@example.com") None "hash:correct horse"
     "owner" true "free";
   User.mk bob "Bob" None (Some "01700000000") "hash:battery staple"
     "tenant" false "free"].

Definition studio_id : string := "64b7f3a2c9e1d4f5a6b7c803".

(** A property that is not available. *)
Definition studio : Doc :=
  list_to_map
    [("owner", JStr alice); ("title", JStr "Studio (renovated)");
     ("description", JStr "One room near the lake");
     ("propertyType", JStr "apartment");
     ("location", JObj [("division", JStr "Dhaka"); ("district", JStr "Dhaka");
                        ("area", JStr "Banani")]);
     ("rent", JObj [("amount", JNum 6000)]);
     ("features", JObj [("bedrooms", JNum 1); ("furnished", JStr "furnished")]);
     ("amenities", JArr []); ("photos", JArr []);
     ("contact", JObj [("phone", JStr "01700000000")]);
     ("terms", JObj []);
     ("isAvailable", JBool false); ("createdAt", JNum 1700000200)].

Definition two_flats : Store := <[studio_id := studio]> one_flat.

Definition no_filters : Query.t :=
  Query.mk None None None None None None None None None None None.

Definition apartments : Query.t :=
  Query.mk (Some "apartment") None None None None None None None None None None.

Definition searching (text : string) : Query.t :=
  Query.mk None None None None None None None None (Some text) None None.

(** A query that filters on the division only. *)
Definition in_division (text : string) : Query.t :=
  Query.mk None (Some text) None None None None None None None None None.

Definition paging (page limit : Z) : Query.t :=
  Query.mk None None None None None None None None None (Some page) (Some limit).

(** Twenty-five available listings, created one after the other. *)
Definition listing (i : nat) : string * Doc :=
  ("64b7f3a2c9e1d4f5a6b7c9" ++
   String (ascii_of_nat (48 + i / 10)) (String (ascii_of_nat (48 + i mod 10)) ""),
   list_to_map
     [("owner", JStr alice); ("title", JStr "Flat");
      ("isAvailable", JBool true); ("createdAt", JNum (1700000000 + Z.of_nat i))]).

Definition twenty_five : Store := list_to_map (listing <$> seq 0 25).

Definition loft_id : string := "64b7f3a2c9e1d4f5a6b7c804".

(** An available property with a parenthesis in its title. *)
Definition loft : Doc :=
  list_to_map
    [("owner", JStr alice); ("title", JStr "Loft (new)");
     ("description", JStr "Open space under the roof");
     ("isAvailable", JBool true); ("createdAt", JNum 1700000300)].

Definition one_loft : Store := {[ loft_id := loft ]}.

(** A user model that stores a tagged copy of the password, in agreement
    with [test_credentials], and admits tenants and owners. *)
Definition test_user_model : UserModel :=
  {| hashPassword p := "hash:" ++ p;
     initial_isActive := true;
     initial_subscription := "free";
     user_valid u := in_list (User.accountType u) ["tenant"; "owner"] |}.

Definition carol_id : string := "64b7f3a2c9e1d4f5a6b7c8c3".

Definition carol_signup : Signup.t :=
  Signup.mk (Some "Carol") (Some "carol@example.com") None (Some "tr0ub4dor")
    (Some "owner").

(** ** Notions used in the statements *)

(** The value a path of a new document gets from the raw document. *)
Definition built_value (now : Z) (raw : Doc) (path : string) (old : option Json)
  : option Json :=
  match raw !! path with
  | Some v => Some v
  | None =>
      match default_at now path with
      | Some v => Some v
      | None => old
      end
  end.

(** The urls of the files when every upload succeeds, in the order of the
    files; [None] when some upload fails. *)
Definition uploads `{ImageHost} (files : list File) : option (list string) :=
  mapM (λ file, upload_stream "rentnest/properties" (buffer file)) files.

(** The full result set of a list query, before pagination: the documents
    [Property.find(filter)] selects.  There is none when the filter cannot
    be built. *)
Definition matching `{RegExpEngine} (q : Query.t) (store : Store)
  : list (string * Doc) :=
  match buildFilter q with
  | Ok filter => find filter store
  | Throw _ => []
  end.

(** The string at [path] matches the pattern text [pattern]. *)
Definition pattern_found `{RegExpEngine} (pattern : string) (d : Doc) (path : string)
  : Prop :=
  ∃ r s, RegExp pattern = Some r
         ∧ get_path d path = Some (JStr s)
         ∧ regex_test r s = true.

(** A document matches the filters supplied with a query: each supplied
    parameter constrains its path, and all constraints hold together.  The
    text filters are pattern matches without regard to case, the search
    filter a match on the title or on the description. *)
Definition matches_supplied `{RegExpEngine} (q : Query.t) (d : Doc) : Prop :=
  (∀ v, supplied (Query.propertyType q) = Some v →
        get_path d "propertyType" = Some (JStr v))
  ∧ (∀ v, supplied (Query.division q) = Some v →
          pattern_found v d "location.division")
  ∧ (∀ v, supplied (Query.district q) = Some v →
          pattern_found v d "location.district")
  ∧ (∀ v, supplied (Query.area q) = Some v → pattern_found v d "location.area")
  ∧ (∀ a, Query.minRent q = Some a →
          ∃ n, get_path d "rent.amount" = Some (JNum n) ∧ a ≤ n)
  ∧ (∀ b, Query.maxRent q = Some b →
          ∃ n, get_path d "rent.amount" = Some (JNum n) ∧ n ≤ b)
  ∧ (∀ n, Query.bedrooms q = Some n →
          get_path d "features.bedrooms" = Some (JNum n))
  ∧ (∀ v, supplied (Query.furnished q) = Some v →
          get_path d "features.furnished" = Some (JStr v))
  ∧ (∀ v, supplied (Query.search q) = Some v →
          pattern_found v d "title" ∨ pattern_found v d "description").

(** A filter under construction: the paths it may constrain so far, and
    what it asks of a document. *)
Definition describes `{RegExpEngine} (paths : list string)
    (filter : gmap string Cond) (asks : Doc → Prop) : Prop :=
  (∀ k, in_list k paths = false → filter !! k = None)
  ∧ (∀ d, satisfies filter d = true ↔ asks d).

(** A text in which no character has a meaning in the pattern syntax. *)
Definition literal_text (text : string) : bool :=
  forallb (λ c, negb (LiteralEngine.syntax_character c))
    (list_ascii_of_string text).

(** An engine reads a literal text as the text itself: the pattern built
    from it matches a string exactly when the text occurs in the string,
    letters compared without regard to case. *)
Definition reads_literals `{RegExpEngine} : Prop :=
  ∀ text, literal_text text = true →
    ∃ r, RegExp text = Some r ∧ ∀ s, regex_test r s = contains_ci text s.

(** The property has a string at [path] in which [text] occurs. *)
Definition occurs_at (text : string) (d : Doc) (path : string) : Prop :=
  ∃ s, get_path d path = Some (JStr s) ∧ contains_ci text s = true.

(** A text parameter is accepted when it is not supplied or the pattern
    constructor takes its text. *)
Definition accepted `{RegExpEngine} (param : option string) : Prop :=
  match supplied param with
  | Some pattern => is_Some (RegExp pattern)
  | None => True
  end.

Definition patterns_accepted `{RegExpEngine} (q : Query.t) : Prop :=
  accepted (Query.division q) ∧ accepted (Query.district q)
  ∧ accepted (Query.area q) ∧ accepted (Query.search q).

(** The query with its empty text parameters left out. *)
Definition without_blanks (q : Query.t) : Query.t :=
  Query.mk (supplied (Query.propertyType q)) (supplied (Query.division q))
    (supplied (Query.district q)) (supplied (Query.area q))
    (Query.minRent q) (Query.maxRent q) (Query.bedrooms q)
    (supplied (Query.furnished q)) (supplied (Query.search q))
    (Query.page q) (Query.limit q).

(** The query asked for another page. *)
Definition with_page (q : Query.t) (page : Z) : Query.t :=
  Query.mk (Query.propertyType q) (Query.division q) (Query.district q)
    (Query.area q) (Query.minRent q) (Query.maxRent q) (Query.bedrooms q)
    (Query.furnished q) (Query.search q) (Some page) (Query.limit q).

(** No two users share an email, and no two share a mobile number. *)
Definition unique_identities (users : list User.t) : Prop :=
  NoDup (omap User.email users) ∧ NoDup (omap User.mobile users).

(** A query that filters on the rent only. *)
Definition renting (minRent maxRent : option Z) : Query.t :=
  Query.mk None None None None minRent maxRent None None None None None.

(** Two documents that agree at every path other than the owner.  The
    public reads replace the owner reference of a document by fields of the
    owner's account ([.populate('owner', ...)]), which the handlers above
    leave as the reference: what is said of a document read is said up to
    this relation. *)
Definition same_but_owner (d d' : Doc) : Prop :=
  ∀ path, path ≠ "owner" → d !! path = d' !! path.

(** Created strictly later: the order from the most recent of documents
    whose creation times differ. *)
Definition strictly_newer (x y : string * Doc) : Prop :=
  createdAt y.2 < createdAt x.2.

Global Instance strictly_newer_dec x y : Decision (strictly_newer x y) :=
  Z_lt_dec (createdAt y.2) (createdAt x.2).

(** The members of an update body name top-level paths: none is a dotted
    path and none is an update operator.  These are the bodies the model of
    [findByIdAndUpdate] covers. *)
Definition plain_paths (body : list (string * Json)) : bool :=
  forallb (λ kv, negb (is_infix "." kv.1) && negb (String.prefix "$" kv.1)) body.

(* ===================================================================== *)
(** * Properties *)

(** ** Loading a property by id *)

Lemma findById_valid id (store : Store) :
  isValidObjectId id = true → findById id store = Ok (store !! id).
Proof.
  intros Hid. unfold findById, castObjectId. by rewrite Hid.
Qed.

Lemma findById_malformed id (store : Store) :
  isValidObjectId id = false →
  findById id store = Throw (mkError CastError "Cast to ObjectId failed").
Proof.
  intros Hid. unfold findById, castObjectId. by rewrite Hid.
Qed.

Lemma eqb_string_neq (a b : string) : a ≠ b → String.eqb a b = false.
Proof. intros Hne. by apply String.eqb_neq. Qed.

(** For a well-formed id the three owner-gated operations answer 404 when
    no property has the id, whoever the caller is, and 403 when the property
    belongs to someone else; in both cases the collection is left as it
    was. *)
Lemma not_found_before_forbidden `{Schema} user id body (store : Store) :
  isValidObjectId id = true →
  (store !! id = None →
     updateProperty user id body store = (fail 404 "Property not found", store)
     ∧ deleteProperty user id store = (fail 404 "Property not found", store)
     ∧ toggleAvailability user id store = (fail 404 "Property not found", store))
  ∧ (∀ P o, store !! id = Some P → P !! "owner" = Some (JStr o) → o ≠ user →
     updateProperty user id body store
       = (fail 403 "You are not authorized to update this property", store)
     ∧ deleteProperty user id store
       = (fail 403 "You are not authorized to delete this property", store)
     ∧ toggleAvailability user id store
       = (fail 403 "You are not authorized to update this property", store)).
Proof.
  intros Hid. split.
  - intros Hnone.
    unfold updateProperty, updateProperty_try, deleteProperty,
      deleteProperty_try, toggleAvailability, toggleAvailability_try.
    rewrite (findById_valid _ _ Hid), Hnone. by cbn.
  - intros P o HP Ho Hne.
    unfold updateProperty, updateProperty_try, deleteProperty,
      deleteProperty_try, toggleAvailability, toggleAvailability_try.
    rewrite (findById_valid _ _ Hid), HP. cbn.
    unfold owner_toString. rewrite Ho. cbn.
    by rewrite (eqb_string_neq _ _ Hne).
Qed.

(** C2, at a malformed id.  No property has the id [abc], and the claim asks
    for NotFound; update, delete and toggleAvailability answer 500, because
    the [CastError] of [findById] reaches their [catch] block, which does
    not look at [error.kind].  GET /:id answers 404 at the same id. *)
Theorem malformed_id_is_server_error `{Schema} user body (store : Store) :
  store !! "abc" = None →
  (status (updateProperty user "abc" body store).1 = 500%nat
   ∧ (updateProperty user "abc" body store).2 = store)
  ∧ deleteProperty user "abc" store = (fail 500 "Server error", store)
  ∧ toggleAvailability user "abc" store = (fail 500 "Server error", store)
  ∧ getProperty "abc" store = fail 404 "Property not found".
Proof. intros _. by repeat split. Qed.

Lemma malformed_id_is_server_error_witness :
  (∅ : Store) !! "abc" = None
  ∧ status (@updateProperty typed_schema bob "abc" [] ∅).1 = 500%nat
  ∧ getProperty "abc" ∅ = fail 404 "Property not found".
Proof.
  split; [reflexivity |].
  destruct (@malformed_id_is_server_error typed_schema bob [] ∅)
    as ((Hupdate & _) & _ & _ & Hget); [reflexivity |].
  by split.
Defined.

(** ** Toggling availability *)

Lemma toggle_owned user id (store : Store) P :
  isValidObjectId id = true →
  store !! id = Some P →
  P !! "owner" = Some (JStr user) →
  toggleAvailability user id store
  = let P' := <["isAvailable" := JBool (not_isAvailable P)]> P in
    (mkResponse 200 true
       (Some ("Property marked as " ++
              (if not_isAvailable P then "available" else "unavailable")))
       (DProperty id P'),
     <[id := P']> store).
Proof.
  intros Hid HP Ho.
  unfold toggleAvailability, toggleAvailability_try.
  rewrite (findById_valid _ _ Hid), HP. cbn.
  unfold owner_toString. rewrite Ho. cbn.
  rewrite String.eqb_refl. cbn.
  rewrite lookup_insert_eq. cbn. reflexivity.
Qed.

(** C9.  For a property owned by the caller, one call of toggleAvailability
    succeeds, flips the availability flag and returns the new state; a
    second call flips it back, so that the property and the whole collection
    are as before the first call. *)
Theorem toggle_twice_restores user id (store : Store) P b :
  isValidObjectId id = true →
  store !! id = Some P →
  P !! "owner" = Some (JStr user) →
  P !! "isAvailable" = Some (JBool b) →
  let once := toggleAvailability user id store in
  let twice := toggleAvailability user id once.2 in
  status once.1 = 200%nat
  ∧ data once.1 = DProperty id (<["isAvailable" := JBool (negb b)]> P)
  ∧ once.2 !! id = Some (<["isAvailable" := JBool (negb b)]> P)
  ∧ status twice.1 = 200%nat
  ∧ data twice.1 = DProperty id P
  ∧ twice.2 = store.
Proof.
  intros Hid HP Ho Hb once twice.
  assert (Hn : not_isAvailable P = negb b).
  { unfold not_isAvailable. by rewrite Hb. }
  set (P1 := <["isAvailable" := JBool (negb b)]> P).
  assert (Honce : once = (mkResponse 200 true
       (Some ("Property marked as " ++
              (if negb b then "available" else "unavailable")))
       (DProperty id P1), <[id := P1]> store)).
  { subst once. rewrite (toggle_owned user id store P Hid HP Ho). cbn.
    by rewrite Hn. }
  assert (Ho1 : P1 !! "owner" = Some (JStr user)).
  { subst P1. by rewrite lookup_insert_ne. }
  assert (Hn1 : not_isAvailable P1 = b).
  { unfold not_isAvailable. subst P1. rewrite lookup_insert_eq. cbn.
    apply negb_involutive. }
  assert (Hback : <["isAvailable" := JBool b]> P1 = P).
  { subst P1. rewrite insert_insert_eq. by apply insert_id. }
  assert (Htwice : twice.1 = mkResponse 200 true
       (Some ("Property marked as " ++
              (if b then "available" else "unavailable")))
       (DProperty id P) ∧ twice.2 = store).
  { subst twice. rewrite Honce. cbn [snd].
    rewrite (toggle_owned user id (<[id := P1]> store) P1 Hid
               (lookup_insert_eq _ _ _) Ho1).
    cbn. rewrite Hn1, Hback. split; [done |].
    rewrite insert_insert_eq. by apply insert_id. }
  destruct Htwice as [Ht1 Ht2].
  rewrite Honce, Ht1, Ht2. cbn. by rewrite lookup_insert_eq.
Qed.

Lemma toggle_twice_restores_witness :
  let once := toggleAvailability alice flat_id one_flat in
  let twice := toggleAvailability alice flat_id once.2 in
  status once.1 = 200%nat
  ∧ data once.1 = DProperty flat_id (<["isAvailable" := JBool (negb true)]> flat)
  ∧ once.2 !! flat_id = Some (<["isAvailable" := JBool (negb true)]> flat)
  ∧ status twice.1 = 200%nat
  ∧ data twice.1 = DProperty flat_id flat
  ∧ twice.2 = one_flat.
Proof.
  apply (toggle_twice_restores alice flat_id one_flat flat true).
  - reflexivity.
  - apply lookup_singleton_eq.
  - reflexivity.
  - reflexivity.
Defined.

(** The flag of a property stored without one is loaded as the default
    [true], and its negation is [false]. *)
Lemma not_isAvailable_unset (P : Doc) :
  P !! "isAvailable" = None → not_isAvailable P = false.
Proof. intros Hnone. unfold not_isAvailable. by rewrite Hnone. Qed.

(** C10.  A successful toggleAvailability changes nothing but the
    availability flag of the targeted property: every other path of that
    property keeps its value, and every other property of the collection is
    the one it was.  The flag is written as a boolean, the negation of the
    stored one when the property is stored with a boolean flag. *)
Theorem toggle_changes_only_the_flag user id (store : Store) P :
  isValidObjectId id = true →
  store !! id = Some P →
  P !! "owner" = Some (JStr user) →
  ∃ P', status (toggleAvailability user id store).1 = 200%nat
    ∧ (toggleAvailability user id store).2 !! id = Some P'
    ∧ (∃ b', P' !! "isAvailable" = Some (JBool b'))
    ∧ (∀ b, P !! "isAvailable" = Some (JBool b) →
         P' !! "isAvailable" = Some (JBool (negb b)))
    ∧ (∀ path, path ≠ "isAvailable" → P' !! path = P !! path)
    ∧ (∀ id', id' ≠ id →
         (toggleAvailability user id store).2 !! id' = store !! id').
Proof.
  intros Hid HP Ho.
  exists (<["isAvailable" := JBool (not_isAvailable P)]> P).
  rewrite (toggle_owned user id store P Hid HP Ho). cbn.
  split; [done |]. split; [by rewrite lookup_insert_eq |].
  split; [eexists; by rewrite lookup_insert_eq |]. split; [| split].
  - intros b Hb. rewrite lookup_insert_eq. unfold not_isAvailable.
    by rewrite Hb.
  - intros path Hne. by rewrite lookup_insert_ne.
  - intros id' Hne. by rewrite lookup_insert_ne.
Qed.

Lemma toggle_changes_only_the_flag_witness :
  ∃ P', status (toggleAvailability alice flat_id one_flat).1 = 200%nat
    ∧ (toggleAvailability alice flat_id one_flat).2 !! flat_id = Some P'
    ∧ (∃ b', P' !! "isAvailable" = Some (JBool b'))
    ∧ (∀ b, flat !! "isAvailable" = Some (JBool b) →
         P' !! "isAvailable" = Some (JBool (negb b)))
    ∧ (∀ path, path ≠ "isAvailable" → P' !! path = flat !! path)
    ∧ (∀ id', id' ≠ flat_id →
         (toggleAvailability alice flat_id one_flat).2 !! id' = one_flat !! id').
Proof.
  apply (toggle_changes_only_the_flag alice flat_id one_flat flat).
  - reflexivity.
  - apply lookup_singleton_eq.
  - reflexivity.
Defined.

(** ** Creating a document *)

Lemma built_value_idem now raw path old :
  built_value now raw path (built_value now raw path old)
  = built_value now raw path old.
Proof.
  unfold built_value. destruct (raw !! path); [done |].
  by destruct (default_at now path).
Qed.

Lemma build_path_lookup `{Schema} now (raw : Doc) path (d d' : Doc) k :
  build_path now raw path d = Ok d' →
  d' !! k = if String.eqb k path then built_value now raw path (d !! path)
            else d !! k.
Proof.
  unfold build_path, built_value. intros Hb.
  destruct (String.eqb_spec k path) as [-> | Hne].
  - destruct (raw !! path) as [v |].
    + destruct (valid_at path v); [| done]. inversion Hb; subst.
      by rewrite lookup_insert_eq.
    + destruct (in_list path required_paths); [done |].
      destruct (default_at now path); inversion Hb; subst; [| done].
      by rewrite lookup_insert_eq.
  - destruct (raw !! path) as [v |].
    + destruct (valid_at path v); [| done]. inversion Hb; subst.
      by rewrite lookup_insert_ne.
    + destruct (in_list path required_paths); [done |].
      destruct (default_at now path); inversion Hb; subst; [| done].
      by rewrite lookup_insert_ne.
Qed.

Lemma build_doc_lookup `{Schema} now (raw : Doc) paths :
  ∀ (d d' : Doc) k,
    build_doc now raw paths d = Ok d' →
    d' !! k = if in_list k paths then built_value now raw k (d !! k)
              else d !! k.
Proof.
  induction paths as [| path paths IH]; intros d d' k Hb; cbn in Hb.
  - inversion Hb; by subst.
  - destruct (build_path now raw path d) as [d1 |] eqn:H1; [| done].
    cbn in Hb. rewrite (IH _ _ k Hb).
    rewrite (build_path_lookup _ _ _ _ _ k H1).
    unfold in_list at 2. cbn [existsb]. fold (in_list k paths).
    destruct (String.eqb_spec k path) as [-> | Hne]; cbn.
    + destruct (in_list path paths); [apply built_value_idem | done].
    + done.
Qed.

Lemma Property_create_Ok `{Schema} env (raw : Doc) (store : Store) id P store' :
  Property_create env raw store = Ok (id, P, store') →
  build_doc (now env) raw schema_paths ∅ = Ok P
  ∧ store !! newId env = None
  ∧ id = newId env
  ∧ store' = <[newId env := P]> store.
Proof.
  unfold Property_create. intros Hc.
  destruct (build_doc (now env) raw schema_paths ∅) as [d |]; [| done].
  cbn in Hc. destruct (store !! newId env); [done |].
  by inversion Hc; subst.
Qed.

(** A path of the schema that the raw document sets is stored as given. *)
Lemma created_path `{Schema} env (raw : Doc) (store : Store) id P store' path v :
  Property_create env raw store = Ok (id, P, store') →
  in_list path schema_paths = true →
  raw !! path = Some v →
  P !! path = Some v.
Proof.
  intros Hc Hin Hraw.
  destruct (Property_create_Ok _ _ _ _ _ _ Hc) as (Hb & _).
  rewrite (build_doc_lookup _ _ _ _ _ path Hb), Hin.
  unfold built_value. by rewrite Hraw.
Qed.

Lemma set_opt_ne path v (raw : Doc) k :
  k ≠ path → set_opt path v raw !! k = raw !! k.
Proof.
  intros Hne. unfold set_opt. destruct v; [| done]. by rewrite lookup_insert_ne.
Qed.

Lemma set_opt_eq path v (raw : Doc) :
  set_opt path (Some v) raw !! path = Some v.
Proof. cbn. by rewrite lookup_insert_eq. Qed.

(** ** The upload loop *)

Lemma upload_loop_spec `{ImageHost} files :
  ∀ acc log,
    match uploads files with
    | Some urls =>
        upload_loop files acc log
        = (Ok (acc ++ (photo <$> urls)), log ++ zip_with Uploaded files urls)%list
    | None =>
        ∃ log', upload_loop files acc log
                = (Throw (mkError UploadError "upload failed"), log')
                ∧ ∀ id, Persisted id ∈ log' → Persisted id ∈ log
    end.
Proof.
  unfold uploads.
  induction files as [| file files IH]; intros acc log; cbn.
  - by rewrite !app_nil_r.
  - destruct (upload_stream "rentnest/properties" (buffer file)) as [url |] eqn:Hu;
      cbn.
    + specialize (IH (acc ++ [photo url])%list (log ++ [Uploaded file url])%list).
      destruct (mapM _ files) as [urls |]; cbn.
      * rewrite IH. by rewrite <- !app_assoc.
      * destruct IH as (log' & -> & Hlog). exists log'. split; [done |].
        intros id Hin. specialize (Hlog id Hin).
        apply elem_of_app in Hlog as [Hlog | Hlog]; [done |].
        by apply list_elem_of_singleton in Hlog.
    + exists (log ++ [UploadFailed file])%list. split; [done |].
      intros id Hin. apply elem_of_app in Hin as [Hin | Hin]; [done |].
      by apply list_elem_of_singleton in Hin.
Qed.

(** ** POST /api/properties *)

Lemma triple_eta {A B C} (x : A * B * C) : x = (x.1.1, x.1.2, x.2).
Proof. by destruct x as [[? ?] ?]. Qed.

Lemma no_Persisted_in_uploads files urls id :
  Persisted id ∉ zip_with Uploaded files urls.
Proof.
  intros Hin. apply elem_of_zip_with in Hin as (f & u & Heq & _). discriminate.
Qed.

(** The two outcomes of the multipart create: a 201, with the document
    stored under the new id, its owner the caller and its photos the
    uploaded urls in the order of the files; or another status, with the
    collection untouched. *)
Lemma createProperty_outcome `{Schema, JsonParser, ImageHost} env user form files
    (store : Store) response store' log :
  createProperty env user form files store = (response, store', log) →
  (status response = 201%nat
   ∧ ∃ urls P,
       uploads files = Some urls
       ∧ log = (zip_with Uploaded files urls ++ [Persisted (newId env)])%list
       ∧ data response = DProperty (newId env) P
       ∧ P !! "owner" = Some (JStr user)
       ∧ P !! "photos" = Some (JArr (photo <$> urls))
       ∧ store !! newId env = None
       ∧ store' = <[newId env := P]> store)
  ∨ (status response ≠ 201%nat
     ∧ store' = store
     ∧ ∀ id, Persisted id ∉ log).
Proof.
  unfold createProperty, createProperty_try.
  destruct (upload_array files).
  2:{ intros [= <- <- <-]. right. cbn. split; [done |]. split; [done |].
      intros id Hin. by apply elem_of_nil in Hin. }
  destruct (parse_fields form) as [[[[[[pl pr] pf] pa] pc] pt] | e].
  2:{ intros [= <- <- <-]. right. cbn. split; [done |]. split; [done |].
      intros id Hin. by apply elem_of_nil in Hin. }
  destruct (negb (truthy_str (Form.title form)) || _ || _ || _ || _ || _).
  { intros [= <- <- <-]. right. cbn. split; [done |]. split; [done |].
    intros id Hin. by apply elem_of_nil in Hin. }
  pose proof (upload_loop_spec files [] []) as Hloop.
  destruct (uploads files) as [urls |] eqn:Hup.
  - rewrite Hloop. cbn [app].
    match goal with
    | |- context [Property_create env ?r store] => set (raw := r)
    end.
    destruct (Property_create env raw store) as [[[id P] st] | e] eqn:Hc.
    + intros [= <- <- <-]. left. split; [done |].
      destruct (Property_create_Ok _ _ _ _ _ _ Hc) as (_ & Hfresh & -> & ->).
      exists urls, P. repeat split; try done.
      * apply (created_path _ _ _ _ _ _ "owner" _ Hc); [done |].
        subst raw. rewrite !set_opt_ne by done. apply set_opt_eq.
      * apply (created_path _ _ _ _ _ _ "photos" _ Hc); [done |].
        subst raw. rewrite !set_opt_ne by done. apply set_opt_eq.
    + intros [= <- <- <-]. right. cbn. split; [done |]. split; [done |].
      intros id. apply no_Persisted_in_uploads.
  - destruct Hloop as (log' & -> & Hlog).
    intros [= <- <- <-]. right. cbn. split; [done |]. split; [done |].
    intros id Hin. apply Hlog in Hin. by apply elem_of_nil in Hin.
Qed.

(** C7.  In a create request with images, the files are uploaded one after
    the other in the order of the request and the record is persisted after
    the last upload; the photos of the created property are the objects
    [{ url, caption: '' }] of the urls the image host returned for the
    files, in the order of the files; and when some upload fails nothing is
    persisted. *)
Theorem images_uploaded_in_order_before_persisting `{Schema, JsonParser, ImageHost}
    env user form files (store : Store) response store' log :
  createProperty env user form files store = (response, store', log) →
  (status response = 201%nat →
     ∃ urls P,
       Forall2 (λ file url,
                  upload_stream "rentnest/properties" (buffer file) = Some url)
         files urls
       ∧ log = (zip_with Uploaded files urls ++ [Persisted (newId env)])%list
       ∧ data response = DProperty (newId env) P
       ∧ P !! "photos"
         = Some (JArr ((λ url, JObj [("url", JStr url); ("caption", JStr "")])
                       <$> urls))
       ∧ store' = <[newId env := P]> store)
  ∧ (Exists (λ file, upload_stream "rentnest/properties" (buffer file) = None)
       files →
       status response ≠ 201%nat ∧ store' = store ∧ ∀ id, Persisted id ∉ log)
  ∧ (status response ≠ 201%nat → store' = store ∧ ∀ id, Persisted id ∉ log).
Proof.
  intros Hc.
  destruct (createProperty_outcome _ _ _ _ _ _ _ _ Hc)
    as [(H201 & urls & P & Hup & Hlog & Hdata & _ & Hphotos & _ & Hst)
       | (Hne & Hst & Hlog)].
  - split; [| split].
    + intros _. exists urls, P. split; [| done].
      by apply mapM_Some_1.
    + intros Hnone. apply mapM_None_2 in Hnone. unfold uploads in Hup.
      congruence.
    + intros Hne. done.
  - split; [| split]; done.
Qed.

Lemma images_uploaded_in_order_before_persisting_witness :
  let out := @createProperty typed_schema JsonText.parser test_host
               sample_env alice sample_form sample_files ∅ in
  ∃ P,
    out.2 = [Uploaded (mkFile "front.jpg" "front-bytes")
               "https://res.cloudinary.com/rentnest/properties/front-bytes";
             Uploaded (mkFile "kitchen.jpg" "kitchen-bytes")
               "https://res.cloudinary.com/rentnest/properties/kitchen-bytes";
             Persisted (newId sample_env)]
    ∧ P !! "photos"
      = Some (JArr [JObj [("url", JStr "https://res.cloudinary.com/rentnest/properties/front-bytes");
                          ("caption", JStr "")];
                    JObj [("url", JStr "https://res.cloudinary.com/rentnest/properties/kitchen-bytes");
                          ("caption", JStr "")]])
    ∧ out.1.2 = {[ newId sample_env := P ]}.
Proof.
  intros out.
  destruct (@images_uploaded_in_order_before_persisting
              typed_schema JsonText.parser test_host
              sample_env alice sample_form sample_files ∅
              out.1.1 out.1.2 out.2) as (H201 & _).
  { apply triple_eta. }
  destruct H201 as (urls & P & Hup & Hlog & _ & Hphotos & Hst).
  { vm_compute. reflexivity. }
  apply (mapM_Some_2 (λ file, @upload_stream test_host "rentnest/properties" (buffer file)))
    in Hup.
  vm_compute in Hup. injection Hup as <-.
  exists P. split; [exact Hlog |]. split; [exact Hphotos |].
  rewrite Hst. reflexivity.
Defined.

Lemma createPropertyFromJson_outcome `{Schema} env user body (store : Store)
    response store' :
  createPropertyFromJson env user body store = (response, store') →
  (status response = 201%nat
   ∧ ∃ P, data response = DProperty (newId env) P
          ∧ P !! "owner" = Some (JStr user)
          ∧ store !! newId env = None
          ∧ store' = <[newId env := P]> store)
  ∨ (status response ≠ 201%nat ∧ store' = store).
Proof.
  unfold createPropertyFromJson, createPropertyFromJson_try.
  destruct (negb (truthy_opt (member "title" body)) || _ || _ || _ || _ || _).
  { intros [= <- <-]. by right. }
  match goal with
  | |- context [Property_create env ?r store] => set (raw := r)
  end.
  destruct (Property_create env raw store) as [[[id P] st] | e] eqn:Hc; cbn.
  - intros [= <- <-]. left. split; [done |].
    destruct (Property_create_Ok _ _ _ _ _ _ Hc) as (_ & Hfresh & -> & ->).
    exists P. repeat split; try done.
    apply (created_path _ _ _ _ _ _ "owner" _ Hc); [done |].
    subst raw. rewrite !set_opt_ne by done. apply set_opt_eq.
  - intros [= <- <-]. by right.
Qed.

(** ** PUT /api/properties/:id *)

Lemma apply_set_other set :
  ∀ (d : Doc) k,
    Forall (λ kv : string * Json, kv.1 ≠ k) set →
    apply_set d set !! k = d !! k.
Proof.
  unfold apply_set.
  induction set as [| [k' v] set IH]; intros d k Hall; cbn; [done |].
  inversion Hall as [| ? ? Hne Hrest]; subst. cbn in Hne.
  rewrite (IH _ _ Hrest). by rewrite lookup_insert_ne.
Qed.

Lemma settable_not_immutable (update : list (string * Json)) k :
  in_list k immutable_paths = true →
  Forall (λ kv : string * Json, kv.1 ≠ k)
    (List.filter (λ kv, settable kv.1) update).
Proof.
  intros Himm. apply Forall_forall. intros [k' v] Hin.
  apply list_elem_of_In, filter_In in Hin as [_ Hset]. cbn [fst] in *.
  intros ->. unfold settable in Hset. rewrite Himm in Hset.
  by rewrite andb_false_r in Hset.
Qed.




(** ** Required fields of a create request *)

(** When every structured field parses, a request that lacks its title, its
    description or its property type, or whose location, rent or contact is
    falsy, is answered 400 and nothing is persisted. *)
Lemma createProperty_missing_field `{Schema, JsonParser, ImageHost} env user form
    files (store : Store) pl pr pf pa pc pt :
  upload_array files = true →
  parse_fields form = Ok (pl, pr, pf, pa, pc, pt) →
  truthy_str (Form.title form) && truthy_str (Form.description form)
  && truthy_str (Form.propertyType form) && truthy pl && truthy pr && truthy pc
  = false →
  createProperty env user form files store
  = (fail 400 "Please provide all required fields", store, []).
Proof.
  intros Hup Hparse Hmissing.
  unfold createProperty, createProperty_try. rewrite Hup, Hparse.
  destruct (truthy_str (Form.title form)),
    (truthy_str (Form.description form)),
    (truthy_str (Form.propertyType form)),
    (truthy pl), (truthy pr), (truthy pc); try done.
Qed.

(** The JSON-body variant answers 400 whenever one of the six required
    members is absent or falsy. *)
Lemma createPropertyFromJson_missing_field `{Schema} env user body (store : Store) :
  truthy_opt (member "title" body) && truthy_opt (member "description" body)
  && truthy_opt (member "propertyType" body)
  && truthy_opt (member "location" body) && truthy_opt (member "rent" body)
  && truthy_opt (member "contact" body) = false →
  createPropertyFromJson env user body store
  = (fail 400 "Please provide all required fields", store).
Proof.
  intros Hmissing.
  unfold createPropertyFromJson, createPropertyFromJson_try.
  destruct (truthy_opt (member "title" body)),
    (truthy_opt (member "description" body)),
    (truthy_opt (member "propertyType" body)),
    (truthy_opt (member "location" body)),
    (truthy_opt (member "rent" body)),
    (truthy_opt (member "contact" body)); try done.
Qed.

(** Each structured field is parsed before the required-fields check: when
    one of them is absent or is no JSON text, the parse of the fields
    throws. *)
Lemma parse_fields_throws `{JsonParser} form :
  (∃ e, parse_field (Form.location form) = Throw e)
  ∨ (∃ e, parse_field (Form.rent form) = Throw e)
  ∨ (∃ e, parse_field (Form.features form) = Throw e)
  ∨ (∃ e, parse_field (Form.amenities form) = Throw e)
  ∨ (∃ e, parse_field (Form.contact form) = Throw e)
  ∨ (∃ e, parse_field (Form.terms form) = Throw e) →
  ∃ e, parse_fields form = Throw e.
Proof.
  unfold parse_fields. intros Hsome.
  destruct (parse_field (Form.location form)) as [pl | e1]; [| by eexists].
  destruct (parse_field (Form.rent form)) as [pr | e2]; [| by eexists].
  destruct (parse_field (Form.features form)) as [pf | e3]; [| by eexists].
  destruct (parse_field (Form.amenities form)) as [pa | e4]; [| by eexists].
  destruct (parse_field (Form.contact form)) as [pc | e5]; [| by eexists].
  destruct (parse_field (Form.terms form)) as [pt | e6]; [| by eexists].
  destruct Hsome as [(e & [=]) | [(e & [=]) | [(e & [=]) | [(e & [=])
                    | [(e & [=]) | (e & [=])]]]]].
Qed.

(** C6, at a request one of whose structured fields is absent or
    unparsable.  The claim asks for a validation error; the multipart create
    answers 500, because [JSON.parse] throws before the required-fields
    check is reached.  Nothing is persisted and nothing is uploaded. *)
Theorem unparsable_field_is_server_error `{Schema, JsonParser, ImageHost}
    env user form files (store : Store) e :
  upload_array files = true →
  parse_fields form = Throw e →
  createProperty env user form files store
  = (fail 500 (message_or e "Server error"), store, []).
Proof.
  intros Hup Hparse.
  unfold createProperty, createProperty_try.
  by rewrite Hup, Hparse.
Qed.

Lemma unparsable_field_is_server_error_witness :
  (let out := @createProperty typed_schema JsonText.parser test_host
                sample_env alice form_without_location sample_files ∅ in
   status out.1.1 = 500%nat ∧ out.1.2 = ∅ ∧ out.2 = [])
  ∧ @createPropertyFromJson typed_schema sample_env alice
      [("title", JStr "Lakeview Apartment");
       ("description", JStr "Two rooms with a balcony");
       ("propertyType", JStr "apartment");
       ("rent", JObj [("amount", JNum 3000)]);
       ("contact", JObj [("phone", JStr "01700000000")])] ∅
    = (fail 400 "Please provide all required fields", ∅).
Proof.
  split.
  - rewrite (@unparsable_field_is_server_error typed_schema JsonText.parser
               test_host sample_env alice form_without_location sample_files ∅
               (mkError SyntaxError "undefined is not valid JSON"));
      [by repeat split | reflexivity | reflexivity].
  - apply createPropertyFromJson_missing_field. reflexivity.
Defined.

(** ** POST /api/auth/login *)

Lemma supplied_nonempty s : s ≠ "" → supplied (Some s) = Some s.
Proof. intros Hne. unfold supplied. by rewrite (eqb_string_neq _ _ Hne). Qed.

(** A request without identifier or without password is answered 400,
    whoever is registered. *)
Lemma login_missing_input `{Credentials} emailOrMobile password users :
  supplied emailOrMobile = None ∨ supplied password = None →
  login emailOrMobile password users
  = fail 400 "Please provide email/mobile and password".
Proof.
  unfold login. intros [-> | ->]; [done |].
  by destruct (supplied emailOrMobile).
Qed.

(** C8, at an empty identifier.  No user matches it, and yet the request
    does not fail with the invalid-credentials answer: the guard on missing
    input answers 400 before any user is looked up. *)
Lemma empty_identifier_is_not_invalid_credentials :
  find_user "" sample_users = None
  ∧ @login test_credentials (Some "") (Some "secret") sample_users
    = fail 400 "Please provide email/mobile and password"
  ∧ @login test_credentials (Some "") (Some "secret") sample_users
    ≠ fail 401 "Invalid credentials".
Proof. by repeat split. Qed.

(** C8, amended.  For every identifier and password, login answers with one
    and the same response when no user matches the identifier and when a
    user matches it but the password does not verify, and it answers
    account-disabled only when a user matches, the password verifies and the
    user's active flag is false.  When identifier and password are both
    non-empty, that common response is the invalid-credentials answer, and
    a matched, verified, inactive user is answered account-disabled. *)
Theorem login_failures `{Credentials} emailOrMobile password :
  (∀ users users' user,
     find_user emailOrMobile users = None →
     find_user emailOrMobile users' = Some user →
     comparePassword password (User.password user) = false →
     login (Some emailOrMobile) (Some password) users
     = login (Some emailOrMobile) (Some password) users')
  ∧ (∀ users,
       status (login (Some emailOrMobile) (Some password) users) = 403%nat →
       ∃ user, find_user emailOrMobile users = Some user
               ∧ comparePassword password (User.password user) = true
               ∧ User.isActive user = false)
  ∧ (emailOrMobile ≠ "" →
     password ≠ "" →
     (∀ users,
        find_user emailOrMobile users = None →
        login (Some emailOrMobile) (Some password) users
        = fail 401 "Invalid credentials")
     ∧ (∀ users user,
          find_user emailOrMobile users = Some user →
          comparePassword password (User.password user) = false →
          login (Some emailOrMobile) (Some password) users
          = fail 401 "Invalid credentials")
     ∧ (∀ users user,
          find_user emailOrMobile users = Some user →
          comparePassword password (User.password user) = true →
          User.isActive user = false →
          login (Some emailOrMobile) (Some password) users
          = fail 403 "Your account has been deactivated. Please contact support.")).
Proof.
  split; [| split].
  - intros users users' user Hnone Hsome Hc. unfold login.
    destruct (String.eqb_spec emailOrMobile "") as [-> | He]; [done |].
    destruct (String.eqb_spec password "") as [-> | Hp]; [done |].
    rewrite (supplied_nonempty _ He), (supplied_nonempty _ Hp).
    by rewrite Hnone, Hsome, Hc.
  - intros users. unfold login.
    destruct (String.eqb_spec emailOrMobile "") as [-> | He]; [done |].
    destruct (String.eqb_spec password "") as [-> | Hp];
      [by rewrite (supplied_nonempty _ He) |].
    rewrite (supplied_nonempty _ He), (supplied_nonempty _ Hp).
    destruct (find_user emailOrMobile users) as [user |]; [| done].
    destruct (comparePassword password (User.password user)) eqn:Hc; [| done].
    destruct (User.isActive user) eqn:Ha; [done |].
    intros _. by exists user.
  - intros He Hp. unfold login.
    rewrite (supplied_nonempty _ He), (supplied_nonempty _ Hp).
    split; [| split].
    + intros users ->. done.
    + intros users user -> ->. done.
    + intros users user -> -> ->. done.
Qed.

Lemma login_failures_witness :
  @login test_credentials (Some "user@example.com") (Some "wrong") []
  = @login test_credentials (Some "user@example.com") (Some "wrong")
      sample_users
  ∧ @login test_credentials (Some "nosuchuser@example.com") (Some "anything")
      sample_users
    = fail 401 "Invalid credentials"
  ∧ @login test_credentials (Some "user@example.com") (Some "wrong")
      sample_users
    = fail 401 "Invalid credentials"
  ∧ @login test_credentials (Some "01700000000") (Some "battery staple")
      sample_users
    = fail 403 "Your account has been deactivated. Please contact support.".
Proof.
  destruct (@login_failures test_credentials "user@example.com" "wrong")
    as (Hsame & _ & Hwrong).
  destruct Hwrong as (_ & Hwrong & _); [done | done |].
  destruct (@login_failures test_credentials "nosuchuser@example.com" "anything")
    as (_ & _ & Hnone).
  destruct Hnone as (Hnone & _ & _); [done | done |].
  destruct (@login_failures test_credentials "01700000000" "battery staple")
    as (_ & _ & Hdisabled).
  destruct Hdisabled as (_ & _ & Hdisabled); [done | done |].
  split; [| split; [| split]].
  - apply (Hsame [] sample_users
             (User.mk alice "Alice" (Some "user@example.com") None
                "hash:correct horse" "owner" true "free"));
      reflexivity.
  - apply (Hnone sample_users). reflexivity.
  - apply (Hwrong sample_users
             (User.mk alice "Alice" (Some "user@example.com") None
                "hash:correct horse" "owner" true "free"));
      reflexivity.
  - apply (Hdisabled sample_users
             (User.mk bob "Bob" None (Some "01700000000") "hash:battery staple"
                "tenant" false "free"));
      reflexivity.
Defined.

(** ** The filter of a list query *)

Lemma json_eqb_JBool x b : json_eqb x (JBool b) = true ↔ x = JBool b.
Proof.
  destruct x; cbn; try (split; [discriminate | by intros [=]]).
  rewrite Bool.eqb_true_iff. split; [by intros -> | by intros [= ->]].
Qed.

Lemma json_eqb_JNum x n : json_eqb x (JNum n) = true ↔ x = JNum n.
Proof.
  destruct x; cbn; try (split; [discriminate | by intros [=]]).
  rewrite Z.eqb_eq. split; [by intros -> | by intros [= ->]].
Qed.

Lemma json_eqb_JStr x s : json_eqb x (JStr s) = true ↔ x = JStr s.
Proof.
  destruct x; cbn; try (split; [discriminate | by intros [=]]).
  rewrite String.eqb_eq. split; [by intros -> | by intros [= ->]].
Qed.

Lemma holds_Equals `{RegExpEngine} (d : Doc) path v :
  (∀ x, json_eqb x v = true ↔ x = v) →
  holds d path (Equals v) = true ↔ get_path d path = Some v.
Proof.
  intros Heq. cbn. destruct (get_path d path) as [x |].
  - rewrite Heq. split; [by intros -> | by intros [= ->]].
  - split; discriminate.
Qed.

Lemma holds_Matches `{RegExpEngine} (d : Doc) path pattern r :
  RegExp pattern = Some r →
  holds d path (Matches r) = true ↔ pattern_found pattern d path.
Proof.
  intros Hr. cbn. unfold matches_at, pattern_found.
  destruct (get_path d path) as [[| | | s | |] |].
  all: try (split; [discriminate | by intros (? & ? & _ & [=] & _)]).
  split.
  - intros Ht. by exists r, s.
  - intros (r' & s' & Hr' & [= <-] & Ht). congruence.
Qed.

Lemma holds_Between `{RegExpEngine} (d : Doc) path gte lte :
  holds d path (Between gte lte) = true
  ↔ ∃ n, get_path d path = Some (JNum n)
         ∧ (∀ a, gte = Some a → a ≤ n) ∧ (∀ b, lte = Some b → n ≤ b).
Proof.
  cbn. destruct (get_path d path) as [[| | n | | |] |].
  all: try (split; [discriminate | by intros (? & [=] & _)]).
  rewrite andb_true_iff. split.
  - intros [Ha Hb]. exists n. split; [done |]. split.
    + intros a ->. by apply Z.leb_le.
    + intros b ->. by apply Z.leb_le.
  - intros (n' & [= <-] & Ha & Hb). split.
    + destruct gte as [a |]; [| done]. apply Z.leb_le. by apply Ha.
    + destruct lte as [b |]; [| done]. apply Z.leb_le. by apply Hb.
Qed.

Lemma satisfies_insert `{RegExpEngine} (filter : gmap string Cond) path c d :
  filter !! path = None →
  satisfies (<[path := c]> filter) d = true
  ↔ holds d path c = true ∧ satisfies filter d = true.
Proof.
  intros Hfresh. unfold satisfies. rewrite !bool_decide_eq_true.
  by apply (map_Forall_insert (λ path c, holds d path c = true)).
Qed.

Lemma in_list_cons_false k path paths :
  in_list k (path :: paths) = false → k ≠ path ∧ in_list k paths = false.
Proof.
  unfold in_list. cbn. intros [Hne Hin]%orb_false_iff.
  split; [by apply String.eqb_neq | done].
Qed.

Lemma describes_start `{RegExpEngine} path c :
  describes [path] {[ path := c ]} (λ d, holds d path c = true).
Proof.
  split.
  - intros k [Hne _]%in_list_cons_false. by apply lookup_singleton_ne.
  - intros d. unfold satisfies. rewrite bool_decide_eq_true.
    rewrite map_Forall_singleton. done.
Qed.

Lemma describes_insert `{RegExpEngine} paths filter asks path c :
  describes paths filter asks →
  in_list path paths = false →
  describes (path :: paths) (<[path := c]> filter)
    (λ d, holds d path c = true ∧ asks d).
Proof.
  intros [Hdom Hasks] Hfresh. split.
  - intros k [Hne Hin]%in_list_cons_false.
    rewrite lookup_insert_ne by done. by apply Hdom.
  - intros d. rewrite satisfies_insert by by apply Hdom.
    by rewrite Hasks.
Qed.

Lemma describes_skip `{RegExpEngine} paths filter asks path :
  describes paths filter asks → describes (path :: paths) filter asks.
Proof.
  intros [Hdom Hasks]. split; [| done].
  intros k [_ Hin]%in_list_cons_false. by apply Hdom.
Qed.

Lemma describes_iff `{RegExpEngine} paths filter (asks asks' : Doc → Prop) :
  (∀ d, asks d ↔ asks' d) →
  describes paths filter asks → describes paths filter asks'.
Proof.
  intros Hiff [Hdom Hasks]. split; [done |].
  intros d. by rewrite Hasks.
Qed.

(** A text filter: either the pattern is accepted and the filter asks for a
    match at the path, or the constructor throws and no document can match
    the parameter. *)
Lemma pattern_filter_spec `{RegExpEngine} param path paths filter asks :
  describes paths filter asks →
  in_list path paths = false →
  match pattern_filter param path filter with
  | Ok filter' =>
      describes (path :: paths) filter'
        (λ d, (∀ v, supplied param = Some v → pattern_found v d path) ∧ asks d)
  | Throw _ =>
      ∀ d, ¬ (∀ v, supplied param = Some v → pattern_found v d path)
  end.
Proof.
  intros Hd Hfresh. unfold pattern_filter, new_RegExp.
  destruct (supplied param) as [pattern |].
  - destruct (RegExp pattern) as [r |] eqn:Hr; cbn.
    + eapply describes_iff; [| by apply describes_insert].
      intros d. cbn beta. rewrite (holds_Matches d path pattern r Hr).
      split.
      * intros [Hm Ha]. split; [by intros v [= <-] | done].
      * intros [Hm Ha]. split; [by apply Hm | done].
    + intros d Hm. destruct (Hm pattern eq_refl) as (r & s & Hr' & _).
      congruence.
  - eapply describes_iff; [| by apply describes_skip].
    intros d. split; [by intros Ha | by intros [_ Ha]].
Qed.

Lemma equals_filter_spec `{RegExpEngine} {A} (o : option A) (mk : A → Json)
    path paths filter asks :
  (∀ a x, json_eqb x (mk a) = true ↔ x = mk a) →
  describes paths filter asks →
  in_list path paths = false →
  describes (path :: paths)
    (match o with
     | Some a => <[path := Equals (mk a)]> filter
     | None => filter
     end)
    (λ d, (∀ a, o = Some a → get_path d path = Some (mk a)) ∧ asks d).
Proof.
  intros Heq Hd Hfresh. destruct o as [a |].
  - eapply describes_iff; [| by apply describes_insert].
    intros d. cbn beta. rewrite (holds_Equals d path (mk a)) by apply Heq.
    split.
    + intros [Hm Ha]. split; [by intros a' [= <-] | done].
    + intros [Hm Ha]. split; [by apply Hm | done].
  - eapply describes_iff; [| by apply describes_skip].
    intros d. split; [by intros Ha | by intros [_ Ha]].
Qed.

Lemma between_filter_spec `{RegExpEngine} (gte lte : option Z) path paths filter asks :
  describes paths filter asks →
  in_list path paths = false →
  describes (path :: paths)
    (if bool_decide (is_Some gte) || bool_decide (is_Some lte)
     then <[path := Between gte lte]> filter
     else filter)
    (λ d, ((∀ a, gte = Some a → ∃ n, get_path d path = Some (JNum n) ∧ a ≤ n)
           ∧ (∀ b, lte = Some b → ∃ n, get_path d path = Some (JNum n) ∧ n ≤ b))
          ∧ asks d).
Proof.
  intros Hd Hfresh.
  destruct (bool_decide (is_Some gte) || bool_decide (is_Some lte)) eqn:Hany.
  - eapply describes_iff; [| by apply describes_insert].
    intros d. cbn beta. rewrite holds_Between. split.
    + intros [(n & Hn & Ha & Hb) Hasks]. split; [| done]. split.
      * intros a Hgte. exists n. split; [done | by apply Ha].
      * intros b Hlte. exists n. split; [done | by apply Hb].
    + intros [[Ha Hb] Hasks]. split; [| done].
      apply orb_true_iff in Hany as [Hs | Hs];
        apply bool_decide_eq_true in Hs as [x ->].
      * destruct (Ha x eq_refl) as (n & Hn & Hle). exists n.
        split; [done |]. split; [by intros a [= <-] |].
        intros b Hlte. destruct (Hb b Hlte) as (n' & Hn' & Hle').
        congruence.
      * destruct (Hb x eq_refl) as (n & Hn & Hle). exists n.
        split; [done |]. split; [| by intros b [= <-]].
        intros a Hgte. destruct (Ha a Hgte) as (n' & Hn' & Hle').
        congruence.
  - apply orb_false_iff in Hany as [Hg Hl].
    apply bool_decide_eq_false in Hg, Hl.
    eapply describes_iff; [| by apply describes_skip].
    intros d. split; [| by intros [_ Ha]].
    intros Ha. split; [| done]. split.
    + intros a ->. by destruct Hg.
    + intros b ->. by destruct Hl.
Qed.

Lemma search_filter_spec `{RegExpEngine} (param : option string) paths filter asks :
  describes paths filter asks →
  in_list "$or" paths = false →
  match
    match supplied param with
    | Some search =>
        let* in_title := new_RegExp search in
        let* in_description := new_RegExp search in
        Ok (<["$or" := AnyOf [("title", in_title); ("description", in_description)]]>
              filter)
    | None => Ok filter
    end
  with
  | Ok filter' =>
      describes ("$or" :: paths) filter'
        (λ d, (∀ v, supplied param = Some v →
                    pattern_found v d "title" ∨ pattern_found v d "description")
              ∧ asks d)
  | Throw _ =>
      ∀ d, ¬ (∀ v, supplied param = Some v →
                   pattern_found v d "title" ∨ pattern_found v d "description")
  end.
Proof.
  intros Hd Hfresh. unfold new_RegExp.
  destruct (supplied param) as [pattern |].
  - destruct (RegExp pattern) as [r |] eqn:Hr; cbn.
    + eapply describes_iff; [| by apply describes_insert].
      intros d. cbn beta.
      assert (Hor : holds d "$or" (AnyOf [("title", r); ("description", r)]) = true
                    ↔ pattern_found pattern d "title"
                      ∨ pattern_found pattern d "description").
      { cbn [holds existsb fst snd]. rewrite orb_false_r, orb_true_iff.
        rewrite <- (holds_Matches d "title" pattern r Hr).
        rewrite <- (holds_Matches d "description" pattern r Hr). done. }
      rewrite Hor. split.
      * intros [Hm Ha]. split; [by intros v [= <-] | done].
      * intros [Hm Ha]. split; [by apply Hm | done].
    + intros d Hm.
      destruct (Hm pattern eq_refl) as [(r & s & Hr' & _) | (r & s & Hr' & _)];
        congruence.
  - eapply describes_iff; [| by apply describes_skip].
    intros d. split; [by intros Ha | by intros [_ Ha]].
Qed.

Lemma get_path_top (d : Doc) :
  get_path d "isAvailable" = d !! "isAvailable".
Proof. unfold get_path. cbn. by destruct (d !! "isAvailable"). Qed.

(** What the filter of a query asks of a document: that it is available and
    that it matches the supplied filters.  When the filter cannot be built,
    no document matches the supplied filters. *)
Lemma buildFilter_spec `{RegExpEngine} (q : Query.t) :
  match buildFilter q with
  | Ok filter =>
      ∀ d, satisfies filter d = true
           ↔ d !! "isAvailable" = Some (JBool true) ∧ matches_supplied q d
  | Throw _ => ∀ d, ¬ matches_supplied q d
  end.
Proof.
  unfold buildFilter. cbv zeta.
  pose proof (describes_start "isAvailable" (Equals (JBool true))) as H0.
  pose proof (equals_filter_spec (supplied (Query.propertyType q)) JStr
                "propertyType" _ _ _ (λ a x, json_eqb_JStr x a) H0 eq_refl) as H1.
  pose proof (pattern_filter_spec (Query.division q) "location.division"
                _ _ _ H1 eq_refl) as H2.
  destruct (pattern_filter (Query.division q) _ _) as [f2 | e]; cbn [bind];
    [| intros d Hm; apply (H2 d); apply Hm].
  pose proof (pattern_filter_spec (Query.district q) "location.district"
                _ _ _ H2 eq_refl) as H3.
  destruct (pattern_filter (Query.district q) _ _) as [f3 | e]; cbn [bind];
    [| intros d Hm; apply (H3 d); apply Hm].
  pose proof (pattern_filter_spec (Query.area q) "location.area"
                _ _ _ H3 eq_refl) as H4.
  destruct (pattern_filter (Query.area q) _ _) as [f4 | e]; cbn [bind];
    [| intros d Hm; apply (H4 d); apply Hm].
  pose proof (between_filter_spec (Query.minRent q) (Query.maxRent q)
                "rent.amount" _ _ _ H4 eq_refl) as H5.
  pose proof (equals_filter_spec (Query.bedrooms q) JNum
                "features.bedrooms" _ _ _ (λ a x, json_eqb_JNum x a) H5 eq_refl)
    as H6.
  pose proof (equals_filter_spec (supplied (Query.furnished q)) JStr
                "features.furnished" _ _ _ (λ a x, json_eqb_JStr x a) H6 eq_refl)
    as H7.
  pose proof (search_filter_spec (Query.search q) _ _ _ H7 eq_refl) as H8.
  match type of H8 with
  | match ?m with _ => _ end => destruct m as [f8 | e]
  end; [| intros d Hm; apply (H8 d); apply Hm].
  destruct H8 as [_ H8]. intros d. rewrite H8.
  rewrite (holds_Equals d "isAvailable" (JBool true))
    by (intros x; apply json_eqb_JBool).
  rewrite get_path_top. unfold matches_supplied. tauto.
Qed.

(** ** GET /api/properties *)

Lemma elem_of_find `{RegExpEngine} filter (store : Store) id P :
  (id, P) ∈ find filter store ↔ store !! id = Some P ∧ satisfies filter P = true.
Proof.
  unfold find. rewrite list_elem_of_In, filter_In, <- list_elem_of_In.
  by rewrite elem_of_map_to_list.
Qed.

Lemma elem_of_limit {A} n (l : list A) x : x ∈ limit n l → x ∈ l.
Proof.
  unfold limit. destruct (n =? 0); [done |].
  intros Hin. by apply (subseteq_take (Z.to_nat (Z.abs n)) l).
Qed.

Lemma elem_of_skip {A} n (l l' : list A) x : skip n l = Ok l' → x ∈ l' → x ∈ l.
Proof.
  unfold skip. destruct (n <? 0); [done |]. intros [= <-] Hin.
  by apply (subseteq_drop (Z.to_nat n) l).
Qed.

(** Whatever the page and the limit, a listed document belongs to the full
    result set. *)
Lemma listed_matching `{RegExpEngine} (q : Query.t) (store : Store) x :
  x ∈ listed (listProperties q store) → x ∈ matching q store.
Proof.
  unfold listProperties, listProperties_try, matching.
  destruct (buildFilter q) as [filter | e]; cbn [bind];
    [| by unfold listed, fail; cbn].
  destruct (skip _ _) as [skipped | e] eqn:Hskip; cbn [bind];
    [| unfold listed, fail; cbn; by intros Hin%elem_of_nil].
  unfold listed; cbn. intros Hin. apply elem_of_limit in Hin.
  apply (elem_of_skip _ _ _ _ Hskip) in Hin.
  unfold sort_newest_first in Hin. by rewrite merge_sort_Permutation in Hin.
Qed.

Lemma elem_of_matching `{RegExpEngine} (q : Query.t) (store : Store) id P :
  (id, P) ∈ matching q store
  ↔ store !! id = Some P
    ∧ P !! "isAvailable" = Some (JBool true)
    ∧ matches_supplied q P.
Proof.
  unfold matching. pose proof (buildFilter_spec q) as Hspec.
  destruct (buildFilter q) as [filter | e].
  - rewrite elem_of_find, Hspec. done.
  - split; [by intros Hin%elem_of_nil |].
    intros (_ & _ & Hm). by destruct (Hspec P).
Qed.

(** The first page of a query without page and limit holds the whole result
    set when that has at most ten documents. *)
Lemma listed_first_page `{RegExpEngine} (q : Query.t) (store : Store) x :
  Query.page q = None →
  Query.limit q = None →
  (length (matching q store) ≤ 10)%nat →
  x ∈ listed (listProperties q store) ↔ x ∈ matching q store.
Proof.
  intros Hp Hl Hlen. split; [apply listed_matching |].
  unfold listProperties, listProperties_try, matching in *.
  rewrite Hp, Hl. destruct (buildFilter q) as [filter | e]; [| done].
  cbn. intros Hin.
  change (skip ((1 - 1) * 10) (sort_newest_first (find filter store)))
    with (Ok (sort_newest_first (find filter store))).
  cbn. change (Z.to_nat (Z.abs 10)) with 10%nat.
  rewrite take_ge
    by (unfold sort_newest_first; rewrite merge_sort_Permutation; lia).
  unfold sort_newest_first. by rewrite merge_sort_Permutation.
Qed.

(** The total of a response counts the full result set. *)
Lemma total_matching `{RegExpEngine} (q : Query.t) (store : Store)
    count total totalPages currentPage properties :
  data (listProperties q store)
  = DProperties count total totalPages currentPage properties →
  total = length (matching q store).
Proof.
  unfold listProperties, listProperties_try, matching.
  destruct (buildFilter q) as [filter | e]; cbn [bind]; [| done].
  destruct (skip _ _) as [skipped | e]; cbn [bind]; [| done].
  cbn. by intros [= _ <- _ _ _].
Qed.

(** The result set of a list query, with the text filters read as the
    handler reads them (as patterns): a property belongs to it exactly when
    it is in the collection, is available and matches the supplied filters;
    the total of a response counts that set and the documents of a response
    are taken from it. *)
Lemma list_returns_the_available_matches `{RegExpEngine} (q : Query.t)
    (store : Store) id P :
  ((id, P) ∈ matching q store
   ↔ store !! id = Some P
     ∧ P !! "isAvailable" = Some (JBool true)
     ∧ matches_supplied q P)
  ∧ (∀ count total totalPages currentPage properties,
       data (listProperties q store)
       = DProperties count total totalPages currentPage properties →
       total = length (matching q store))
  ∧ ((id, P) ∈ listed (listProperties q store) → (id, P) ∈ matching q store)
  ∧ (P !! "isAvailable" ≠ Some (JBool true) →
     (id, P) ∉ listed (listProperties q store)).
Proof.
  split; [apply elem_of_matching |]. split; [apply total_matching |].
  split; [apply listed_matching |].
  intros Hna Hin. apply listed_matching, elem_of_matching in Hin.
  by destruct Hin as (_ & ? & _).
Qed.

Lemma matches_supplied_in_division `{RegExpEngine} text (d : Doc) :
  text ≠ "" →
  matches_supplied (in_division text) d
  ↔ pattern_found text d "location.division".
Proof.
  intros Hne. unfold matches_supplied, in_division. cbn -[supplied].
  rewrite (supplied_nonempty _ Hne). split.
  - intros (_ & Hd & _). by apply Hd.
  - intros Hd. repeat split; try (by intros ? [=]). by intros v [= <-].
Qed.

(** C1, at the division text [.].  The claim asks that a property is in
    the result set exactly when it is available and matches the supplied
    filters, the division filter being a substring test without regard to
    case.  The text is handed to the pattern constructor as it is: [.]
    does not occur in the division [Dhaka] of the flat, but as a pattern it
    matches any character, and the response to the request carries the
    flat.  The other half of the claim holds of every response: each
    property it carries is a stored property that is available. *)
Theorem division_text_is_a_pattern `{RegExpEngine} dot :
  RegExp "." = Some dot →
  regex_test dot "Dhaka" = true →
  (get_path flat "location.division" = Some (JStr "Dhaka")
   ∧ contains_ci "." "Dhaka" = false
   ∧ flat_id ∈ (listed (listProperties (in_division ".") one_flat)).*1)
  ∧ (∀ (q : Query.t) (store : Store) id,
       id ∈ (listed (listProperties q store)).*1 →
       ∃ P, store !! id = Some P ∧ P !! "isAvailable" = Some (JBool true)).
Proof.
  intros Hdot Htest. split.
  - split; [reflexivity |]. split; [reflexivity |].
    assert (Hin : (flat_id, flat) ∈ matching (in_division ".") one_flat).
    { apply elem_of_matching. split; [apply lookup_singleton_eq |].
      split; [reflexivity |].
      apply matches_supplied_in_division; [done |].
      by exists dot, "Dhaka". }
    apply list_elem_of_fmap. exists (flat_id, flat). split; [reflexivity |].
    apply listed_first_page; [done | done | | done].
    unfold matching. destruct (buildFilter _) as [g | e]; [| cbn; lia].
    unfold find.
    pose proof (filter_length_le (λ kd, satisfies g kd.2) (map_to_list one_flat))
      as Hle.
    unfold one_flat in Hle at 2. rewrite map_to_list_singleton in Hle.
    cbn [length] in Hle. lia.
  - intros q store id Hin.
    apply list_elem_of_fmap in Hin as ([id' D] & -> & Hin).
    apply listed_matching, elem_of_matching in Hin.
    destruct Hin as (Hst & Hav & _). by exists D.
Qed.

Lemma division_text_is_a_pattern_witness :
  contains_ci "." "Dhaka" = false
  ∧ flat_id
    ∈ (listed (@listProperties LiteralEngine.engine (in_division ".") one_flat)).*1.
Proof.
  destruct (@division_text_is_a_pattern LiteralEngine.engine
              [LiteralEngine.AnyChar])
    as ((_ & Hno & Hin) & _); [reflexivity .. |].
  by split.
Defined.

(** ** Pagination *)

Local Instance newer_first_trans : Transitive newer_first.
Proof. unfold newer_first. intros x y z Hxy Hyz. lia. Qed.

Local Instance newer_first_total : Total newer_first.
Proof. unfold newer_first. intros x y. lia. Qed.

Lemma sort_newest_first_sorted l : StronglySorted newer_first (sort_newest_first l).
Proof. apply StronglySorted_merge_sort; apply _. Qed.

Lemma sort_newest_first_perm l : sort_newest_first l ≡ₚ l.
Proof. apply merge_sort_Permutation. Qed.

(** [Math.ceil(total / limit)] for a positive limit is the least number of
    pages of that size that hold [total] items. *)
Lemma ceil_div_pages total n :
  1 ≤ n →
  ∃ k, ceil_div total n = Num k
       ∧ (k - 1) * n < Z.of_nat total ≤ k * n.
Proof.
  intros Hn. unfold ceil_div.
  destruct (Z.eqb_spec n 0) as [-> | _]; [lia |].
  eexists. split; [reflexivity |].
  pose proof (Z.div_mod (- Z.of_nat total) n ltac:(lia)) as Hdm.
  pose proof (Z.mod_pos_bound (- Z.of_nat total) n ltac:(lia)) as Hmod.
  nia.
Qed.

(** C4, amended.  For a list query whose filter is built, with a page and a
    limit of at least 1 (1 and 10 when omitted), the response carries the
    slice of the matching properties, ordered from the most recent to the
    oldest, that starts at offset (page - 1) * limit and has at most limit
    items; total counts the matching properties before pagination and
    totalPages is the ceiling of total / limit.  With 25 matching
    properties, page 2 and limit 10 this is the items 11 to 20, total 25 and
    totalPages 3. *)
Theorem list_page `{RegExpEngine} (q : Query.t) (store : Store) filter :
  let page := default 1 (Query.page q) in
  let limit_ := default 10 (Query.limit q) in
  buildFilter q = Ok filter →
  1 ≤ page →
  1 ≤ limit_ →
  ∃ ordered properties totalPages,
    ordered ≡ₚ matching q store
    ∧ StronglySorted newer_first ordered
    ∧ properties
      = take (Z.to_nat limit_) (drop (Z.to_nat ((page - 1) * limit_)) ordered)
    ∧ listProperties q store
      = mkResponse 200 true None
          (DProperties (length properties) (length (matching q store))
             (Num totalPages) page properties)
    ∧ (length properties ≤ Z.to_nat limit_)%nat
    ∧ (totalPages - 1) * limit_ < Z.of_nat (length (matching q store))
      ≤ totalPages * limit_
    ∧ (length (matching q store) = 25%nat → page = 2 → limit_ = 10 →
       totalPages = 3
       ∧ length properties = 10%nat
       ∧ ∀ i, (i < 10)%nat → properties !! i = ordered !! (10 + i)%nat).
Proof.
  intros page limit_ Hf Hpage Hlimit.
  destruct (ceil_div_pages (length (matching q store)) limit_ Hlimit)
    as (k & Hk & Hbounds).
  exists (sort_newest_first (matching q store)),
    (take (Z.to_nat limit_)
       (drop (Z.to_nat ((page - 1) * limit_))
          (sort_newest_first (matching q store)))), k.
  split; [apply sort_newest_first_perm |].
  split; [apply sort_newest_first_sorted |].
  split; [done |]. split.
  - unfold listProperties, listProperties_try, matching in *.
    rewrite Hf in *. cbn [bind]. fold page limit_.
    unfold skip. destruct (Z.ltb_spec ((page - 1) * limit_) 0) as [Hneg | _];
      [nia |].
    cbn [bind]. unfold limit.
    destruct (Z.eqb_spec limit_ 0) as [H0 | _]; [lia |].
    rewrite (Z.abs_eq limit_) by lia.
    unfold countDocuments. by rewrite Hk.
  - split; [rewrite length_take; lia |]. split; [exact Hbounds |].
    intros H25 Hp Hl. rewrite H25 in Hbounds.
    assert (Hlen : length (sort_newest_first (matching q store)) = 25%nat).
    { by rewrite sort_newest_first_perm. }
    rewrite Hp, Hl in *. change (Z.to_nat ((2 - 1) * 10)) with 10%nat.
    change (Z.to_nat 10) with 10%nat.
    split; [lia |]. split.
    + rewrite length_take, length_drop, Hlen. lia.
    + intros i Hi. rewrite lookup_take_lt by done. by rewrite lookup_drop.
Qed.

Lemma list_page_witness :
  ∃ ordered properties,
    ordered ≡ₚ @matching LiteralEngine.engine (paging 2 10) twenty_five
    ∧ StronglySorted newer_first ordered
    ∧ @listProperties LiteralEngine.engine (paging 2 10) twenty_five
      = mkResponse 200 true None (DProperties 10 25 (Num 3) 2 properties)
    ∧ ∀ i, (i < 10)%nat → properties !! i = ordered !! (10 + i)%nat.
Proof.
  edestruct (@list_page LiteralEngine.engine (paging 2 10) twenty_five)
    as (ordered & properties & totalPages & Hperm & Hsorted & _ & Hresp & _ & _
        & Hexample); [reflexivity | done | done |].
  assert (H25 : length (@matching LiteralEngine.engine (paging 2 10) twenty_five)
                = 25%nat) by (vm_compute; reflexivity).
  destruct (Hexample H25 eq_refl eq_refl) as (-> & Hlen & Hitems).
  exists ordered, properties. rewrite Hresp, Hlen, H25.
  split; [exact Hperm |]. split; [exact Hsorted |].
  split; [reflexivity | exact Hitems].
Defined.

(** What the second page of ten holds: the listings 14 down to 5 of the
    twenty-five, the most recent of them first. *)
Example second_page_of_twenty_five :
  (fst <$> listed (@listProperties LiteralEngine.engine (paging 2 10) twenty_five))
  = (fst ∘ listing) <$> [14; 13; 12; 11; 10; 9; 8; 7; 6; 5]%nat.
Proof. vm_compute. reflexivity. Qed.

(** C4, at a limit of zero, at a page of zero and at a search text that is
    no pattern.  With [limit=0] the store applies no limit: one item is
    returned where at most zero are promised, and totalPages is no number.
    With [page=0] the offset is negative and the request fails; with an
    unbalanced parenthesis as search text the filter cannot be built and the
    request fails.  In the last two cases no page is returned at all. *)
Lemma limit_zero_is_no_limit :
  data (@listProperties LiteralEngine.engine (paging 1 0) one_flat)
  = DProperties 1 1 Infinity 1 [(flat_id, flat)]
  ∧ ¬ (length (listed (@listProperties LiteralEngine.engine (paging 1 0) one_flat))
       ≤ Z.to_nat 0)%nat
  ∧ @listProperties LiteralEngine.engine (paging 0 10) one_flat
    = fail 500 "Server error"
  ∧ @listProperties LiteralEngine.engine (searching "(") one_flat
    = fail 500 "Server error".
Proof.
  split; [vm_compute; reflexivity |].
  split; [vm_compute; lia |].
  split; vm_compute; reflexivity.
Qed.

(** ** The search filter *)

Lemma supplied_searching text : text ≠ "" → supplied (Some text) = Some text.
Proof. apply supplied_nonempty. Qed.

(** A search text that the pattern constructor rejects fails the request. *)
Lemma search_rejected `{RegExpEngine} text (store : Store) :
  text ≠ "" →
  RegExp text = None →
  listProperties (searching text) store = fail 500 "Server error".
Proof.
  intros Hne Hr.
  unfold listProperties, listProperties_try, buildFilter, pattern_filter,
    new_RegExp, searching.
  cbn -[supplied]. rewrite (supplied_nonempty _ Hne), Hr. done.
Qed.

(** With a search text only, a document matches the supplied filters when
    its title or its description matches the text as a pattern. *)
Lemma matches_supplied_searching `{RegExpEngine} text (d : Doc) :
  text ≠ "" →
  matches_supplied (searching text) d
  ↔ pattern_found text d "title" ∨ pattern_found text d "description".
Proof.
  intros Hne. unfold matches_supplied, searching. cbn -[supplied].
  rewrite (supplied_nonempty _ Hne). split.
  - intros (_ & _ & _ & _ & _ & _ & _ & _ & Hs). by apply Hs.
  - intros Hs. repeat split; try (by intros ? [=]). by intros v [= <-].
Qed.

(** C5, at the search texts [(] and [.].  The claim asks that a property
    satisfies the search filter exactly when the text occurs in its title or
    in its description.  The text is handed to the pattern constructor as it
    is: [(] occurs in the title of the loft, but the constructor rejects it
    and the request fails; [.] occurs neither in the title nor in the
    description of the flat, but as a pattern it matches any character, and
    the flat is returned. *)
Theorem search_text_is_a_pattern `{RegExpEngine} dot :
  RegExp "(" = None →
  RegExp "." = Some dot →
  regex_test dot "Lakeview Apartment" = true →
  (contains_ci "(" "Loft (new)" = true
   ∧ listProperties (searching "(") one_loft = fail 500 "Server error")
  ∧ (contains_ci "." "Lakeview Apartment" = false
     ∧ contains_ci "." "Two rooms with a balcony" = false
     ∧ (flat_id, flat) ∈ listed (listProperties (searching ".") one_flat)).
Proof.
  intros Hparen Hdot Htest. split; [split; [reflexivity |] |].
  - by apply search_rejected.
  - split; [reflexivity |]. split; [reflexivity |].
    assert (Hin : (flat_id, flat) ∈ matching (searching ".") one_flat).
    { apply elem_of_matching. split; [apply lookup_singleton_eq |].
      split; [reflexivity |].
      apply matches_supplied_searching; [done |].
      left. by exists dot, "Lakeview Apartment". }
    apply listed_first_page; [done | done | | done].
    unfold matching. destruct (buildFilter _) as [g | e]; [| cbn; lia].
    unfold find.
    pose proof (filter_length_le (λ kd, satisfies g kd.2) (map_to_list one_flat))
      as Hle.
    unfold one_flat in Hle at 2. rewrite map_to_list_singleton in Hle.
    cbn [length] in Hle. lia.
Qed.

Lemma search_text_is_a_pattern_witness :
  @listProperties LiteralEngine.engine (searching "(") one_loft
  = fail 500 "Server error"
  ∧ (flat_id, flat)
    ∈ listed (@listProperties LiteralEngine.engine (searching ".") one_flat).
Proof.
  destruct (@search_text_is_a_pattern LiteralEngine.engine
              [LiteralEngine.AnyChar])
    as ((_ & Hparen) & (_ & _ & Hdot)); [reflexivity .. |].
  by split.
Defined.

(** ** Search texts without pattern syntax *)

Lemma prefix_spec (needle hay : string) :
  String.prefix needle hay = true ↔ ∃ post, hay = needle +:+ post.
Proof.
  revert needle. induction hay as [| b hay IH]; intros [| a needle]; cbn.
  - split; [intros _; by exists "" | done].
  - split; [done | by intros (post & [=])].
  - split; [intros _; by exists (String b hay) | done].
  - destruct (ascii_dec a b) as [<- | Hne].
    + rewrite IH. split.
      * intros (post & ->). by exists post.
      * intros (post & [= ->]). by exists post.
    + split; [done |]. intros (post & [= ? _]). done.
Qed.

(** [is_infix] decides occurrence as a substring. *)
Lemma is_infix_spec (needle hay : string) :
  is_infix needle hay = true ↔ ∃ pre post, hay = pre +:+ needle +:+ post.
Proof.
  induction hay as [| b hay IH]; cbn [is_infix].
  - rewrite orb_false_r, prefix_spec. split.
    + intros (post & Heq). by exists "", post.
    + intros ([| c pre] & post & Heq); [by exists post | discriminate].
  - rewrite orb_true_iff, prefix_spec, IH. split.
    + intros [(post & Heq) | (pre & post & ->)].
      * by exists "", post.
      * by exists (String b pre), post.
    + intros ([| c pre] & post & Heq).
      * left. by exists post.
      * right. injection Heq as <- ->. by exists pre, post.
Qed.

Lemma literal_text_cons c text :
  literal_text (String c text) = true →
  LiteralEngine.syntax_character c = false ∧ literal_text text = true.
Proof.
  unfold literal_text. cbn. intros [Hc Ht]%andb_true_iff.
  split; [by apply negb_true_iff | done].
Qed.

Lemma literal_compile text :
  literal_text text = true →
  LiteralEngine.compile text
  = Some (LiteralEngine.Lit <$> list_ascii_of_string text).
Proof.
  induction text as [| c text IH]; [done |].
  intros [Hc Ht]%literal_text_cons. cbn [LiteralEngine.compile].
  rewrite (IH Ht), Hc.
  unfold LiteralEngine.syntax_character in Hc. cbn in Hc.
  repeat (apply orb_false_iff in Hc as [? Hc]).
  replace (Ascii.eqb c "\") with false by done.
  replace (Ascii.eqb c ".") with false by done.
  done.
Qed.

Lemma matches_here_prefix text s :
  LiteralEngine.matches_here (LiteralEngine.Lit <$> list_ascii_of_string text) s
  = String.prefix (lower text) (lower s).
Proof.
  revert s. induction text as [| a text IH]; intros s; [by destruct s |].
  destruct s as [| c s]; [done |]. cbn. rewrite IH.
  destruct (ascii_dec (to_lower a) (to_lower c)) as [-> | Hne].
  - by rewrite Ascii.eqb_refl.
  - by apply Ascii.eqb_neq in Hne as ->.
Qed.

Lemma matches_somewhere_infix text s :
  LiteralEngine.matches_somewhere
    (LiteralEngine.Lit <$> list_ascii_of_string text) s
  = contains_ci text s.
Proof.
  unfold contains_ci.
  induction s as [| c s IH]; cbn [LiteralEngine.matches_somewhere lower is_infix].
  - by rewrite matches_here_prefix.
  - by rewrite matches_here_prefix, IH.
Qed.

(** The reference engine reads literal texts as themselves. *)
Lemma LiteralEngine_reads_literals : @reads_literals LiteralEngine.engine.
Proof.
  intros text Hlit. eexists. split; [by apply literal_compile |].
  intros s. apply matches_somewhere_infix.
Qed.

(** With an engine that reads literal texts as themselves, a search text
    without pattern syntax selects the available properties in whose title
    or description it occurs, letters compared without regard to case. *)
Lemma search_literal_text `{RegExpEngine} text (store : Store) id P :
  reads_literals →
  text ≠ "" →
  literal_text text = true →
  (id, P) ∈ matching (searching text) store
  ↔ store !! id = Some P
    ∧ P !! "isAvailable" = Some (JBool true)
    ∧ (occurs_at text P "title" ∨ occurs_at text P "description").
Proof.
  intros Hreads Hne Hlit.
  destruct (Hreads text Hlit) as (r & Hr & Htest).
  rewrite elem_of_matching, (matches_supplied_searching _ _ Hne).
  assert (Hpath : ∀ path, pattern_found text P path ↔ occurs_at text P path).
  { intros path. unfold pattern_found, occurs_at. split.
    - intros (r' & s & Hr' & Hs & Ht). exists s. split; [done |].
      rewrite <- Htest. congruence.
    - intros (s & Hs & Hc). exists r, s. by rewrite Htest. }
  by rewrite !Hpath.
Qed.

(** The search of the specification's example: [lake] finds a property
    titled "Lakeview Apartment" and one described as "One room near the
    lake". *)
Example search_lake :
  contains_ci "lake" "Lakeview Apartment" = true
  ∧ contains_ci "lake" "One room near the lake" = true
  ∧ (fst <$> @matching LiteralEngine.engine (searching "lake")
               (<[studio_id := <["isAvailable" := JBool true]> studio]> one_flat))
    ≡ₚ [flat_id; studio_id].
Proof.
  split; [reflexivity |]. split; [reflexivity |].
  vm_compute. apply Permutation_swap.
Qed.

(* ===================================================================== *)
(** * Further properties of the handlers *)

(** ** Reading a property *)

Lemma getProperty_stored id (store : Store) P :
  isValidObjectId id = true → store !! id = Some P →
  getProperty id store = mkResponse 200 true None (DProperty id P).
Proof.
  intros Hid HP. unfold getProperty, getProperty_try.
  by rewrite (findById_valid _ _ Hid), HP.
Qed.

Lemma getProperty_unknown id (store : Store) :
  isValidObjectId id = false ∨ store !! id = None →
  getProperty id store = fail 404 "Property not found".
Proof.
  unfold getProperty, getProperty_try, findById, castObjectId.
  destruct (isValidObjectId id); cbn; [| done].
  by intros [[=] | ->].
Qed.



(** ** What the owner-gated operations do to the collection *)

Lemma deleteProperty_outcome user id (store : Store) :
  (isValidObjectId id = true
   ∧ (∃ P, store !! id = Some P ∧ P !! "owner" = Some (JStr user))
   ∧ deleteProperty user id store
     = (mkResponse 200 true (Some "Property deleted successfully") NoData,
        delete id store))
  ∨ (status (deleteProperty user id store).1 ≠ 200%nat
     ∧ (deleteProperty user id store).2 = store).
Proof.
  unfold deleteProperty, deleteProperty_try, findById, castObjectId.
  destruct (isValidObjectId id); cbn; [| by right].
  destruct (store !! id) as [P |] eqn:HP; cbn; [| by right].
  unfold owner_toString.
  destruct (P !! "owner") as [[| | | o | |] |] eqn:Ho; cbn; try by right.
  destruct (String.eqb_spec o user) as [-> | Hne]; cbn; [| by right].
  left. split; [done |]. split; [by exists P | done].
Qed.

Lemma toggleAvailability_outcome user id (store : Store) :
  (isValidObjectId id = true
   ∧ ∃ P, store !! id = Some P
          ∧ P !! "owner" = Some (JStr user)
          ∧ status (toggleAvailability user id store).1 = 200%nat
          ∧ (toggleAvailability user id store).2
            = <[id := <["isAvailable" := JBool (not_isAvailable P)]> P]> store)
  ∨ (status (toggleAvailability user id store).1 ≠ 200%nat
     ∧ (toggleAvailability user id store).2 = store).
Proof.
  destruct (isValidObjectId id) eqn:Hid.
  2:{ right. unfold toggleAvailability, toggleAvailability_try.
      by rewrite (findById_malformed _ _ Hid). }
  destruct (store !! id) as [P |] eqn:HP.
  2:{ right. unfold toggleAvailability, toggleAvailability_try.
      by rewrite (findById_valid _ _ Hid), HP. }
  destruct (P !! "owner") as [[| | | o | |] |] eqn:Ho.
  all: try (right; unfold toggleAvailability, toggleAvailability_try,
              owner_toString;
            by rewrite (findById_valid _ _ Hid), HP; cbn; rewrite Ho).
  destruct (String.eqb_spec o user) as [-> | Hne].
  - left. split; [done |]. exists P.
    by rewrite (toggle_owned user id store P Hid HP Ho).
  - right. unfold toggleAvailability, toggleAvailability_try, owner_toString.
    rewrite (findById_valid _ _ Hid), HP. cbn. rewrite Ho. cbn.
    by rewrite (eqb_string_neq _ _ Hne).
Qed.

Lemma updateProperty_outcome `{Schema} user id body (store : Store) :
  (isValidObjectId id = true
   ∧ ∃ P, store !! id = Some P
          ∧ P !! "owner" = Some (JStr user)
          ∧ updateProperty user id body store
            = let P' := apply_set P (List.filter (λ kv, settable kv.1) body) in
              (mkResponse 200 true (Some "Property updated successfully")
                 (DProperty id P'),
               <[id := P']> store))
  ∨ (status (updateProperty user id body store).1 ≠ 200%nat
     ∧ (updateProperty user id body store).2 = store).
Proof.
  unfold updateProperty, updateProperty_try, findById, findByIdAndUpdate,
    castObjectId.
  destruct (isValidObjectId id); cbn; [| by right].
  destruct (store !! id) as [P |] eqn:HP; cbn; [| by right].
  unfold owner_toString.
  destruct (P !! "owner") as [[| | | o | |] |] eqn:Ho; cbn; try by right.
  destruct (String.eqb_spec o user) as [-> | Hne]; cbn; [| by right].
  destruct (List.find _ _) as [kv |]; cbn; [by right |].
  left. split; [done |]. by exists P.
Qed.

(** X2.  An update, a delete or a toggle that does not answer 200 leaves the
    collection exactly as it was. *)
Theorem failed_operation_changes_nothing `{Schema} user id body (store : Store) :
  (status (updateProperty user id body store).1 ≠ 200%nat →
   (updateProperty user id body store).2 = store)
  ∧ (status (deleteProperty user id store).1 ≠ 200%nat →
     (deleteProperty user id store).2 = store)
  ∧ (status (toggleAvailability user id store).1 ≠ 200%nat →
     (toggleAvailability user id store).2 = store).
Proof.
  split; [| split].
  - destruct (updateProperty_outcome user id body store)
      as [(_ & P & _ & _ & ->) | [_ Hsame]]; [by cbn | done].
  - destruct (deleteProperty_outcome user id store)
      as [(_ & _ & ->) | [_ Hsame]]; [by cbn | done].
  - destruct (toggleAvailability_outcome user id store)
      as [(_ & P & _ & _ & H200 & _) | [_ Hsame]]; [by rewrite H200 | done].
Qed.

Lemma failed_operation_changes_nothing_witness :
  (@updateProperty typed_schema bob flat_id [("title", JStr "Mine now")]
     one_flat).2 = one_flat
  ∧ (deleteProperty bob flat_id one_flat).2 = one_flat
  ∧ (toggleAvailability bob flat_id one_flat).2 = one_flat.
Proof.
  destruct (@failed_operation_changes_nothing typed_schema bob flat_id
              [("title", JStr "Mine now")] one_flat) as (Hu & Hd & Ht).
  split; [apply Hu; vm_compute; lia |].
  split; [apply Hd; vm_compute; lia | apply Ht; vm_compute; lia].
Defined.

(** X3.  Whatever id and body a caller sends, a property that belongs to
    someone else is the same after an update, a delete or a toggle. *)
Theorem other_owners_properties_untouched `{Schema} user id body (store : Store)
    id' P' :
  store !! id' = Some P' →
  P' !! "owner" ≠ Some (JStr user) →
  (updateProperty user id body store).2 !! id' = Some P'
  ∧ (deleteProperty user id store).2 !! id' = Some P'
  ∧ (toggleAvailability user id store).2 !! id' = Some P'.
Proof.
  intros HP' Hother.
  assert (Hne : ∀ P, store !! id = Some P → P !! "owner" = Some (JStr user) →
                     id ≠ id').
  { intros P HP Ho ->. congruence. }
  split; [| split].
  - destruct (updateProperty_outcome user id body store)
      as [(_ & P & HP & Ho & ->) | [_ ->]]; [| done].
    cbn. rewrite lookup_insert_ne by eauto. done.
  - destruct (deleteProperty_outcome user id store)
      as [(_ & (P & HP & Ho) & ->) | [_ ->]]; [| done].
    cbn. unfold deleteOne. rewrite lookup_delete_ne by eauto. done.
  - destruct (toggleAvailability_outcome user id store)
      as [(_ & P & HP & Ho & _ & ->) | [_ ->]]; [| done].
    rewrite lookup_insert_ne by eauto. done.
Qed.

Lemma other_owners_properties_untouched_witness :
  (@updateProperty typed_schema bob flat_id [("owner", JStr bob)] one_flat).2
    !! flat_id = Some flat
  ∧ (deleteProperty bob flat_id one_flat).2 !! flat_id = Some flat
  ∧ (toggleAvailability bob flat_id one_flat).2 !! flat_id = Some flat.
Proof.
  apply (@other_owners_properties_untouched typed_schema bob flat_id
           [("owner", JStr bob)] one_flat flat_id flat).
  - apply lookup_singleton_eq.
  - discriminate.
Defined.

(** ** Deleting *)

(** X4.  When its owner deletes a property, that property and nothing else
    leaves the collection; from then on the id is unknown: reading it,
    deleting it again, toggling it or updating it answers 404. *)
Theorem delete_removes_for_good `{Schema} user id body (store : Store) P :
  isValidObjectId id = true →
  store !! id = Some P →
  P !! "owner" = Some (JStr user) →
  let after := (deleteProperty user id store).2 in
  status (deleteProperty user id store).1 = 200%nat
  ∧ after !! id = None
  ∧ (∀ id', id' ≠ id → after !! id' = store !! id')
  ∧ getProperty id after = fail 404 "Property not found"
  ∧ deleteProperty user id after = (fail 404 "Property not found", after)
  ∧ toggleAvailability user id after = (fail 404 "Property not found", after)
  ∧ updateProperty user id body after = (fail 404 "Property not found", after).
Proof.
  intros Hid HP Ho after.
  destruct (deleteProperty_outcome user id store)
    as [(_ & _ & Hdel) | [Hne _]].
  2:{ exfalso. apply Hne.
      unfold deleteProperty, deleteProperty_try, owner_toString.
      rewrite (findById_valid _ _ Hid), HP. cbn. rewrite Ho. cbn.
      by rewrite String.eqb_refl. }
  assert (Hafter : after = delete id store) by (subst after; by rewrite Hdel).
  assert (Hgone : after !! id = None) by (rewrite Hafter; apply lookup_delete_eq).
  rewrite Hdel. split; [done |]. split; [done |]. split.
  { intros id' Hne. rewrite Hafter. by apply lookup_delete_ne. }
  split.
  { apply getProperty_unknown. by right. }
  by destruct (not_found_before_forbidden user id body after Hid)
    as [Hnone _]; destruct (Hnone Hgone) as (Hu & Hd & Ht).
Qed.

Lemma delete_removes_for_good_witness :
  let after := (deleteProperty alice flat_id one_flat).2 in
  status (deleteProperty alice flat_id one_flat).1 = 200%nat
  ∧ after !! flat_id = None
  ∧ getProperty flat_id after = fail 404 "Property not found"
  ∧ deleteProperty alice flat_id after = (fail 404 "Property not found", after).
Proof.
  intros after.
  destruct (@delete_removes_for_good typed_schema alice flat_id [] one_flat flat)
    as (H200 & Hgone & _ & Hget & Hdel & _);
    [reflexivity | apply lookup_singleton_eq | reflexivity |].
  by repeat split.
Defined.

(** ** Updating *)

Lemma apply_set_snoc (d : Doc) set kv :
  apply_set d (set ++ [kv]) = <[kv.1 := kv.2]> (apply_set d set).
Proof. unfold apply_set. by rewrite foldl_app. Qed.

(** A path is either written by a set list, to a value that does not depend
    on the document, or left as it is. *)
Lemma apply_set_lookup set k :
  (∃ v, ∀ d : Doc, apply_set d set !! k = Some v)
  ∨ (∀ d : Doc, apply_set d set !! k = d !! k).
Proof.
  induction set as [| kv set IH] using rev_ind; [by right |].
  destruct (decide (kv.1 = k)) as [<- | Hne].
  - left. exists kv.2. intros d. rewrite apply_set_snoc.
    by rewrite lookup_insert_eq.
  - destruct IH as [(v & Hv) | Hkeep].
    + left. exists v. intros d. rewrite apply_set_snoc.
      by rewrite lookup_insert_ne.
    + right. intros d. rewrite apply_set_snoc.
      by rewrite lookup_insert_ne.
Qed.

Lemma apply_set_idem (d : Doc) set :
  apply_set (apply_set d set) set = apply_set d set.
Proof.
  apply map_eq. intros k.
  destruct (apply_set_lookup set k) as [(v & Hv) | Hkeep].
  - by rewrite !Hv.
  - by rewrite Hkeep.
Qed.





(** X6.  Sending the same update (a body that names top-level paths) a
    second time changes nothing more: the second request succeeds as well,
    with the same response, and leaves the collection as the first one left
    it. *)
Theorem update_twice_is_update_once `{Schema} user id body (store : Store) :
  plain_paths body = true →
  status (updateProperty user id body store).1 = 200%nat →
  let once := (updateProperty user id body store).2 in
  updateProperty user id body once
  = ((updateProperty user id body store).1, once).
Proof.
  intros _ H200 once.
  destruct (updateProperty_outcome user id body store)
    as [(Hid & P & HP & Ho & Heq) | [Hne _]]; [| done].
  set (set := List.filter (λ kv, settable kv.1) body) in *.
  cbn zeta in Heq.
  assert (Honce : once = <[id := apply_set P set]> store)
    by (subst once; by rewrite Heq).
  destruct (updateProperty_outcome user id body once)
    as [(_ & P1 & HP1 & Ho1 & Heq1) | [Hne1 _]].
  - rewrite Heq1, Heq. cbn.
    rewrite Honce, lookup_insert_eq in HP1. injection HP1 as <-.
    fold set. rewrite apply_set_idem. f_equal.
    rewrite Honce. by rewrite insert_insert_eq.
  - exfalso. apply Hne1. clear Hne1.
    assert (Hstill : once !! id = Some (apply_set P set))
      by (rewrite Honce; apply lookup_insert_eq).
    assert (Ho' : apply_set P set !! "owner" = Some (JStr user)).
    { subst set. rewrite apply_set_other; [done |].
      by apply settable_not_immutable. }
    assert (Hvalid : List.find (λ kv, negb (valid_at kv.1 kv.2)) set = None).
    { revert H200. unfold updateProperty, updateProperty_try, findById,
        findByIdAndUpdate, castObjectId, owner_toString.
      rewrite Hid. cbn. rewrite HP. cbn. rewrite Ho. cbn.
      rewrite String.eqb_refl. cbn. fold set.
      by destruct (List.find _ set). }
    unfold updateProperty, updateProperty_try, findById, findByIdAndUpdate,
      castObjectId, owner_toString.
    rewrite Hid. cbn. rewrite Hstill. cbn. rewrite Ho'. cbn.
    rewrite String.eqb_refl. cbn. fold set. rewrite Hvalid. by cbn.
Qed.

Lemma update_twice_is_update_once_witness :
  let body := [("title", JStr "Lake House"); ("isAvailable", JBool false)] in
  let once := (@updateProperty typed_schema alice flat_id body one_flat).2 in
  @updateProperty typed_schema alice flat_id body once
  = ((@updateProperty typed_schema alice flat_id body one_flat).1, once).
Proof.
  intros body once.
  apply (@update_twice_is_update_once typed_schema alice flat_id body one_flat).
  - reflexivity.
  - vm_compute. reflexivity.
Defined.

(** ** Creating *)

(** X7.  A create request never overwrites or removes a property: whatever
    its outcome, every property of the collection is still there, unchanged,
    and a 201 adds one document under an id that was free. *)
Theorem create_keeps_existing_properties `{Schema, JsonParser, ImageHost}
    env user form files body (store : Store) id' P' :
  store !! id' = Some P' →
  (createProperty env user form files store).1.2 !! id' = Some P'
  ∧ (createPropertyFromJson env user body store).2 !! id' = Some P'
  ∧ (status (createProperty env user form files store).1.1 = 201%nat →
     store !! newId env = None
     ∧ dom (createProperty env user form files store).1.2
       = {[ newId env ]} ∪ dom store)
  ∧ (status (createPropertyFromJson env user body store).1 = 201%nat →
     store !! newId env = None
     ∧ dom (createPropertyFromJson env user body store).2
       = {[ newId env ]} ∪ dom store).
Proof.
  intros HP'.
  destruct (createProperty_outcome env user form files store _ _ _
              (triple_eta _))
    as [(H201 & urls & P & _ & _ & _ & _ & _ & Hfree & Hst)
       | (Hne & Hst & _)];
  destruct (createPropertyFromJson_outcome env user body store _ _
              (surjective_pairing _))
    as [(H201' & Q & _ & _ & Hfree' & Hst') | (Hne' & Hst')];
  rewrite Hst, Hst'.
  all: repeat split; try done.
  all: try (rewrite lookup_insert_ne; [done | congruence]).
  all: by rewrite dom_insert_L.
Qed.

Lemma create_keeps_existing_properties_witness :
  (@createProperty typed_schema JsonText.parser test_host sample_env alice
     sample_form sample_files one_flat).1.2 !! flat_id = Some flat
  ∧ (@createPropertyFromJson typed_schema sample_env alice sample_body
       one_flat).2 !! flat_id = Some flat.
Proof.
  destruct (@create_keeps_existing_properties typed_schema JsonText.parser
              test_host sample_env alice sample_form sample_files sample_body
              one_flat flat_id flat) as (Hm & Hj & _);
    [apply lookup_singleton_eq |].
  by split.
Defined.

(** X8.  In the multipart create, once the structured fields have parsed,
    the required-fields check decides before any image is touched: a request
    that lacks a required field is answered 400 with nothing uploaded and
    nothing persisted, and a request that has them all is never answered
    400. *)
Theorem required_fields_checked_before_upload `{Schema, JsonParser, ImageHost}
    env user form files (store : Store) pl pr pf pa pc pt :
  upload_array files = true →
  parse_fields form = Ok (pl, pr, pf, pa, pc, pt) →
  let complete :=
    truthy_str (Form.title form) && truthy_str (Form.description form)
    && truthy_str (Form.propertyType form) && truthy pl && truthy pr
    && truthy pc in
  (complete = false →
   createProperty env user form files store
   = (fail 400 "Please provide all required fields", store, []))
  ∧ (complete = true →
     status (createProperty env user form files store).1.1 ≠ 400%nat).
Proof.
  intros Hup Hparse complete. split.
  - by apply (createProperty_missing_field _ _ _ _ _ pl pr pf pa pc pt).
  - subst complete. intros Hall.
    destruct (createProperty_outcome env user form files store _ _ _
                (triple_eta _)) as [(H201 & _) | _]; [by rewrite H201 |].
    unfold createProperty, createProperty_try. rewrite Hup, Hparse.
    repeat (apply andb_true_iff in Hall as [Hall ?]).
    replace (truthy_str (Form.title form)) with true by done.
    replace (truthy_str (Form.description form)) with true by done.
    replace (truthy_str (Form.propertyType form)) with true by done.
    replace (truthy pl) with true by done.
    replace (truthy pr) with true by done.
    replace (truthy pc) with true by done.
    cbn [negb orb].
    destruct (upload_loop files [] []) as [[photos | e] log]; [| by cbn].
    destruct (Property_create _ _ _) as [[[id P] st] | e]; by cbn.
Qed.

Lemma required_fields_checked_before_upload_witness :
  @createProperty typed_schema JsonText.parser test_host sample_env alice
    (Form.mk None (Form.description sample_form) (Form.propertyType sample_form)
       (Form.location sample_form) (Form.rent sample_form)
       (Form.features sample_form) (Form.amenities sample_form)
       (Form.contact sample_form) (Form.terms sample_form))
    sample_files ∅
  = (fail 400 "Please provide all required fields", ∅, []).
Proof.
  edestruct (@required_fields_checked_before_upload typed_schema
               JsonText.parser test_host sample_env alice
               (Form.mk None (Form.description sample_form)
                  (Form.propertyType sample_form) (Form.location sample_form)
                  (Form.rent sample_form) (Form.features sample_form)
                  (Form.amenities sample_form) (Form.contact sample_form)
                  (Form.terms sample_form))
               sample_files ∅) as (Hmissing & _);
    [reflexivity | reflexivity |].
  apply Hmissing. reflexivity.
Defined.

(** The loop stops at the first file whose upload fails: the files before it
    have been uploaded, the files after it are not touched. *)
Lemma upload_loop_first_failure `{ImageHost} pre file post urls :
  uploads pre = Some urls →
  upload_stream "rentnest/properties" (buffer file) = None →
  ∀ acc log,
    upload_loop (pre ++ file :: post) acc log
    = (Throw (mkError UploadError "upload failed"),
       log ++ zip_with Uploaded pre urls ++ [UploadFailed file])%list.
Proof.
  unfold uploads. revert urls.
  induction pre as [| f pre IH]; intros urls Hup Hfail acc log; cbn in *.
  - injection Hup as <-. by rewrite Hfail.
  - destruct (upload_stream "rentnest/properties" (buffer f)) as [url |];
      [| done].
    cbn in Hup. destruct (mapM _ pre) as [urls' |] eqn:Hrest; [| done].
    cbn in Hup. injection Hup as <-.
    rewrite (IH urls' eq_refl Hfail). cbn. by rewrite <- app_assoc.
Qed.

(** X9.  When the upload of an image fails, the create request is answered
    500 and nothing is persisted; the images before the failing one have
    already been uploaded, in order, and the images after it are never
    sent. *)
Theorem upload_stops_at_first_failure `{Schema, JsonParser, ImageHost}
    env user form pre file post (store : Store) pl pr pf pa pc pt urls :
  upload_array (pre ++ file :: post) = true →
  parse_fields form = Ok (pl, pr, pf, pa, pc, pt) →
  truthy_str (Form.title form) && truthy_str (Form.description form)
  && truthy_str (Form.propertyType form) && truthy pl && truthy pr && truthy pc
  = true →
  uploads pre = Some urls →
  upload_stream "rentnest/properties" (buffer file) = None →
  let out := createProperty env user form (pre ++ file :: post) store in
  status out.1.1 = 500%nat
  ∧ out.1.2 = store
  ∧ out.2 = (zip_with Uploaded pre urls ++ [UploadFailed file])%list.
Proof.
  intros Hup Hparse Hall Hpre Hfail out. subst out.
  unfold createProperty, createProperty_try. rewrite Hup, Hparse.
  repeat (apply andb_true_iff in Hall as [Hall ?]).
  replace (truthy_str (Form.title form)) with true by done.
  replace (truthy_str (Form.description form)) with true by done.
  replace (truthy_str (Form.propertyType form)) with true by done.
  replace (truthy pl) with true by done.
  replace (truthy pr) with true by done.
  replace (truthy pc) with true by done.
  cbn [negb orb].
  by rewrite (upload_loop_first_failure pre file post urls Hpre Hfail).
Qed.

Lemma upload_stops_at_first_failure_witness :
  let out :=
    @createProperty typed_schema JsonText.parser test_host sample_env alice
      sample_form
      ([mkFile "front.jpg" "front-bytes"]
       ++ mkFile "empty.jpg" "" :: [mkFile "kitchen.jpg" "kitchen-bytes"]) ∅ in
  status out.1.1 = 500%nat
  ∧ out.1.2 = ∅
  ∧ out.2
    = (zip_with Uploaded [mkFile "front.jpg" "front-bytes"]
         ["https://res.cloudinary.com/rentnest/properties/front-bytes"]
       ++ [UploadFailed (mkFile "empty.jpg" "")])%list.
Proof.
  eapply (@upload_stops_at_first_failure typed_schema JsonText.parser
            test_host); reflexivity.
Defined.

(** X10.  A property that has just been created can be read back: after a
    201, GET with the new id answers 200 with the document of the create
    response, up to its owner.  This holds for the multipart create and for
    the JSON-body create. *)
Theorem created_property_can_be_read `{Schema, JsonParser, ImageHost}
    env user form files body (store : Store) :
  isValidObjectId (newId env) = true →
  (status (createProperty env user form files store).1.1 = 201%nat →
   ∃ P D, data (createProperty env user form files store).1.1
          = DProperty (newId env) P
          ∧ getProperty (newId env) (createProperty env user form files store).1.2
            = mkResponse 200 true None (DProperty (newId env) D)
          ∧ same_but_owner D P)
  ∧ (status (createPropertyFromJson env user body store).1 = 201%nat →
     ∃ P D, data (createPropertyFromJson env user body store).1
            = DProperty (newId env) P
            ∧ getProperty (newId env) (createPropertyFromJson env user body store).2
              = mkResponse 200 true None (DProperty (newId env) D)
            ∧ same_but_owner D P).
Proof.
  intros Hid. split.
  - intros H201.
    destruct (createProperty_outcome env user form files store _ _ _
                (triple_eta _))
      as [(_ & urls & P & _ & _ & Hdata & _ & _ & _ & Hst) | (Hne & _)];
      [| done].
    exists P, P. split; [done |]. split; [| done]. rewrite Hst.
    apply getProperty_stored; [done | by rewrite lookup_insert_eq].
  - intros H201.
    destruct (createPropertyFromJson_outcome env user body store _ _
                (surjective_pairing _))
      as [(_ & P & Hdata & _ & _ & Hst) | (Hne & _)]; [| done].
    exists P, P. split; [done |]. split; [| done]. rewrite Hst.
    apply getProperty_stored; [done | by rewrite lookup_insert_eq].
Qed.

Lemma created_property_can_be_read_witness :
  ∃ D, getProperty (newId sample_env)
         (@createPropertyFromJson typed_schema sample_env alice sample_body ∅).2
       = mkResponse 200 true None (DProperty (newId sample_env) D).
Proof.
  destruct (@created_property_can_be_read typed_schema JsonText.parser
              test_host sample_env alice sample_form sample_files sample_body ∅)
    as (_ & Hjson); [reflexivity |].
  destruct Hjson as (P & D & _ & Hget & _); [vm_compute; reflexivity |].
  by exists D.
Defined.

(** ** When a list request fails *)

Lemma buildFilter_accepts `{RegExpEngine} (q : Query.t) :
  match buildFilter q with
  | Ok _ => patterns_accepted q
  | Throw _ => ¬ patterns_accepted q
  end.
Proof.
  unfold buildFilter, pattern_filter, new_RegExp, patterns_accepted, accepted.
  destruct (supplied (Query.division q)) as [p1 |];
    [destruct (RegExp p1) |]; cbn [bind];
    [| by intros ([? [=]] & _) |].
  all: destruct (supplied (Query.district q)) as [p2 |];
    [destruct (RegExp p2) |]; cbn [bind];
    [| by intros (_ & [? [=]] & _) |].
  all: destruct (supplied (Query.area q)) as [p3 |];
    [destruct (RegExp p3) |]; cbn [bind];
    [| by intros (_ & _ & [? [=]] & _) |].
  all: destruct (supplied (Query.search q)) as [p4 |];
    [destruct (RegExp p4) |]; cbn [bind];
    [| by intros (_ & _ & _ & [? [=]]) |].
  all: by repeat split.
Qed.

(** X11.  A list request that is answered 200 has every supplied text filter
    accepted as a pattern and an offset (page - 1) * limit that is not
    negative: a rejected pattern or a negative offset is never answered
    200.  Every request that is not answered 200 is answered 500 "Server
    error". *)
Theorem list_succeeds_or_fails `{RegExpEngine} (q : Query.t) (store : Store) :
  let offset := (default 1 (Query.page q) - 1) * default 10 (Query.limit q) in
  (status (listProperties q store) = 200%nat → patterns_accepted q ∧ 0 ≤ offset)
  ∧ (status (listProperties q store) ≠ 200%nat →
     listProperties q store = fail 500 "Server error").
Proof.
  intros offset. subst offset.
  unfold listProperties, listProperties_try.
  pose proof (buildFilter_accepts q) as Hacc.
  destruct (buildFilter q) as [filter | e]; cbn [bind].
  - unfold skip.
    destruct (Z.ltb_spec ((default 1 (Query.page q) - 1)
                          * default 10 (Query.limit q)) 0) as [Hneg | Hpos];
      cbn [bind].
    + split; [| done]. cbn. done.
    + split; [| done]. cbn. done.
  - split; [| done]. cbn. done.
Qed.

Lemma list_succeeds_or_fails_witness :
  @patterns_accepted LiteralEngine.engine (searching "lake")
  ∧ @listProperties LiteralEngine.engine (searching "(") one_flat
    = fail 500 "Server error".
Proof.
  destruct (@list_succeeds_or_fails LiteralEngine.engine (searching "lake")
              one_flat) as (H200 & _).
  destruct (@list_succeeds_or_fails LiteralEngine.engine (searching "(")
              one_flat) as (_ & H500).
  split.
  - apply H200. vm_compute. reflexivity.
  - apply H500. vm_compute. lia.
Defined.

(** ** Empty text parameters *)

Lemma supplied_idem p : supplied (supplied p) = supplied p.
Proof.
  destruct p as [s |]; [| done]. cbn.
  destruct (String.eqb s "") eqn:Hs; [done |]. cbn. by rewrite Hs.
Qed.

(** X12.  An empty text parameter (as in [?search=]) has the effect of an
    absent one: the response is the same with and without it. *)
Theorem blank_parameters_are_ignored `{RegExpEngine} (q : Query.t) (store : Store) :
  listProperties (without_blanks q) store = listProperties q store.
Proof.
  unfold listProperties, listProperties_try.
  assert (Hf : buildFilter (without_blanks q) = buildFilter q).
  { unfold buildFilter, pattern_filter, without_blanks. cbn -[supplied].
    by rewrite !supplied_idem. }
  by rewrite Hf.
Qed.

(** ** The shape of a list response *)

Lemma filter_sublist {A} (f : A → bool) (l : list A) :
  List.filter f l `sublist_of` l.
Proof.
  induction l as [| x l IH]; cbn; [done |].
  destruct (f x); [by apply sublist_skip | by apply sublist_cons].
Qed.

Lemma limit_sublist {A} n (l : list A) : limit n l `sublist_of` l.
Proof. unfold limit. destruct (n =? 0); [done | apply sublist_take]. Qed.

Lemma skip_sublist {A} n (l l' : list A) : skip n l = Ok l' → l' `sublist_of` l.
Proof.
  unfold skip. destruct (n <? 0); [done |]. intros [= <-]. apply sublist_drop.
Qed.

Lemma find_NoDup `{RegExpEngine} filter (store : Store) :
  NoDup (find filter store).*1.
Proof.
  eapply sublist_NoDup; [apply (NoDup_fst_map_to_list store) |].
  apply fmap_sublist, filter_sublist.
Qed.

(** X13.  In every list response the count is the number of documents
    carried and does not exceed the total, the current page is the requested
    one (1 when omitted), no property is carried twice, and each document
    carried is, up to its owner, the stored document of its id, which is
    available. *)
Theorem list_response_is_consistent `{RegExpEngine} (q : Query.t) (store : Store)
    count total totalPages currentPage properties :
  data (listProperties q store)
  = DProperties count total totalPages currentPage properties →
  count = length properties
  ∧ (count ≤ total)%nat
  ∧ currentPage = default 1 (Query.page q)
  ∧ NoDup properties.*1
  ∧ ∀ id D, (id, D) ∈ properties →
            ∃ P, store !! id = Some P
                 ∧ P !! "isAvailable" = Some (JBool true)
                 ∧ same_but_owner D P.
Proof.
  intros Hdata.
  assert (Hlisted : listed (listProperties q store) = properties)
    by (unfold listed; by rewrite Hdata).
  assert (Hmembers : ∀ id D, (id, D) ∈ properties →
            ∃ P, store !! id = Some P
                 ∧ P !! "isAvailable" = Some (JBool true)
                 ∧ same_but_owner D P).
  { intros id D Hin. rewrite <- Hlisted in Hin.
    apply listed_matching, elem_of_matching in Hin.
    destruct Hin as (? & ? & _). by exists D. }
  revert Hdata. unfold listProperties, listProperties_try.
  destruct (buildFilter q) as [filter | e]; cbn [bind]; [| done].
  destruct (skip _ _) as [skipped | e] eqn:Hskip; cbn [bind]; [| done].
  cbn. intros [= <- <- _ <- <-].
  assert (Hsub : limit (default 10 (Query.limit q)) skipped
                 `sublist_of` sort_newest_first (find filter store)).
  { etrans; [apply limit_sublist | by eapply skip_sublist]. }
  split; [done |]. split.
  { unfold countDocuments. apply sublist_length in Hsub.
    unfold sort_newest_first in Hsub.
    by rewrite merge_sort_Permutation in Hsub. }
  split; [done |]. split; [| done].
  eapply sublist_NoDup; [| by apply fmap_sublist].
  unfold sort_newest_first. rewrite merge_sort_Permutation.
  apply find_NoDup.
Qed.

Lemma list_response_is_consistent_witness :
  ∃ properties,
    data (@listProperties LiteralEngine.engine apartments two_flats)
    = DProperties 1 1 (Num 1) 1 properties
    ∧ NoDup properties.*1
    ∧ ∀ id D, (id, D) ∈ properties →
              ∃ P, two_flats !! id = Some P
                   ∧ P !! "isAvailable" = Some (JBool true)
                   ∧ same_but_owner D P.
Proof.
  eexists. split; [vm_compute; reflexivity |].
  eapply (@list_response_is_consistent LiteralEngine.engine apartments two_flats).
  vm_compute. reflexivity.
Defined.

(** ** Walking through the pages *)

Lemma matching_with_page `{RegExpEngine} (q : Query.t) page (store : Store) :
  matching (with_page q page) store = matching q store.
Proof. done. Qed.

(** A page of a query with a limit of at least 1: the slice of the ordered
    result set at its offset. *)
Lemma listed_page `{RegExpEngine} (q : Query.t) (store : Store) (n : nat) :
  1 ≤ default 10 (Query.limit q) →
  listed (listProperties (with_page q (Z.of_nat (S n))) store)
  = take (Z.to_nat (default 10 (Query.limit q)))
      (drop (n * Z.to_nat (default 10%Z (Query.limit q)))%nat
         (sort_newest_first (matching q store))).
Proof.
  intros Hlimit. set (L := default 10 (Query.limit q)) in *.
  unfold listProperties, listProperties_try, matching.
  change (buildFilter (with_page q (Z.of_nat (S n)))) with (buildFilter q).
  change (default 10 (Query.limit (with_page q (Z.of_nat (S n))))) with L.
  change (default 1 (Query.page (with_page q (Z.of_nat (S n)))))
    with (Z.of_nat (S n)).
  destruct (buildFilter q) as [filter | e]; cbn [bind].
  - unfold skip.
    destruct (Z.ltb_spec ((Z.of_nat (S n) - 1) * L) 0) as [Hneg | _]; [nia |].
    cbn [bind]. unfold listed. cbn [data]. unfold limit.
    destruct (Z.eqb_spec L 0) as [H0 | _]; [lia |].
    rewrite (Z.abs_eq L) by lia. do 2 f_equal. nia.
  - unfold listed, fail. cbn [data].
    change (sort_newest_first []) with (@nil (string * Doc)).
    by rewrite drop_nil, take_nil.
Qed.

Lemma strictly_sorted_distinct (l : list (string * Doc)) x y :
  StronglySorted strictly_newer l →
  x ∈ l → y ∈ l → createdAt x.2 = createdAt y.2 → x = y.
Proof.
  unfold strictly_newer.
  induction 1 as [| z l Hl IH Hz]; [by intros Hx%elem_of_nil |].
  rewrite Forall_forall in Hz.
  intros [-> | Hx]%elem_of_cons [-> | Hy]%elem_of_cons Heq.
  - done.
  - specialize (Hz y Hy). lia.
  - specialize (Hz x Hx). lia.
  - by apply IH.
Qed.

(** A result set whose creation times differ has one order from the most
    recent, and the sort finds it. *)
Lemma sort_newest_first_unique (l ordered : list (string * Doc)) :
  ordered ≡ₚ l →
  StronglySorted strictly_newer ordered →
  sort_newest_first l = ordered.
Proof.
  intros Hperm Hsorted.
  apply (StronglySorted_unique_strong newer_first).
  - intros x y Hx Hy Hxy Hyx.
    apply (strictly_sorted_distinct ordered); [done | | done |].
    + rewrite Hperm. unfold sort_newest_first in Hx.
      by rewrite merge_sort_Permutation in Hx.
    + unfold newer_first in *. lia.
  - apply sort_newest_first_sorted.
  - clear Hperm. induction Hsorted as [| x l0 Hl IH Hx]; constructor; [done |].
    eapply Forall_impl; [exact Hx |].
    unfold strictly_newer, newer_first. intros y. cbn beta. lia.
  - unfold sort_newest_first. by rewrite merge_sort_Permutation, Hperm.
Qed.

(** X14.  When the matching properties have different creation times, so
    that they have one order [ordered] from the most recent, and the limit
    is at least 1, the pages 1, 2, ..., k of a query put one after the other
    carry the first k * limit properties of that order, id by id: no
    property is skipped and none is repeated from one page to the next; a
    page that starts at or after the end of the result set is empty. *)
Theorem pages_tile_the_result `{RegExpEngine} (q : Query.t) (store : Store)
    (ordered : list (string * Doc)) (k : nat) :
  1 ≤ default 10 (Query.limit q) →
  ordered ≡ₚ matching q store →
  StronglySorted strictly_newer ordered →
  let limit_ := Z.to_nat (default 10 (Query.limit q)) in
  let page n := listed (listProperties (with_page q (Z.of_nat n)) store) in
  (concat (page <$> seq 1 k)).*1 = take (k * limit_)%nat ordered.*1
  ∧ ((length ordered ≤ k * limit_)%nat → page (S k) = []).
Proof.
  intros Hlimit Hperm Hsorted limit_ page.
  pose proof (sort_newest_first_unique _ _ Hperm Hsorted) as Hsort.
  split.
  - rewrite <- fmap_take. f_equal.
    induction k as [| k IH]; [reflexivity |].
    rewrite seq_S, fmap_app, concat_app, IH. cbn [fmap list_fmap concat].
    rewrite app_nil_r. subst page. cbn beta.
    change (1 + k)%nat with (S k). rewrite (listed_page q store k Hlimit).
    fold limit_. rewrite Hsort, take_take_drop. f_equal. lia.
  - intros Hlen. subst page. cbn beta.
    rewrite (listed_page q store k Hlimit). fold limit_.
    rewrite Hsort, drop_ge; [apply take_nil | done].
Qed.

Lemma pages_tile_the_result_witness :
  let page n :=
    listed (@listProperties LiteralEngine.engine
              (with_page (paging 1 10) (Z.of_nat n)) twenty_five) in
  (concat (page <$> seq 1 3)).*1
  = take (3 * 10)%nat
      (sort_newest_first
         (@matching LiteralEngine.engine (paging 1 10) twenty_five)).*1
  ∧ page 4%nat = [].
Proof.
  intros page.
  destruct (@pages_tile_the_result LiteralEngine.engine (paging 1 10)
              twenty_five
              (sort_newest_first
                 (@matching LiteralEngine.engine (paging 1 10) twenty_five)) 3)
    as (Htile & Hlast).
  - done.
  - apply sort_newest_first_perm.
  - apply (bool_decide_unpack _). vm_compute. reflexivity.
  - split; [exact Htile |]. apply Hlast. vm_compute. lia.
Defined.

(** ** The owner's own listing *)

Lemma get_path_owner (d : Doc) : get_path d "owner" = d !! "owner".
Proof. unfold get_path. cbn. by destruct (d !! "owner"). Qed.

Lemma elem_of_my_properties `{RegExpEngine} user (store : Store) id P :
  (id, P) ∈ listing_properties (listMyProperties user store)
  ↔ store !! id = Some P ∧ P !! "owner" = Some (JStr user).
Proof.
  unfold listMyProperties. cbn [listing_properties].
  unfold sort_newest_first. rewrite merge_sort_Permutation, elem_of_find.
  unfold satisfies. rewrite bool_decide_eq_true, map_Forall_singleton.
  rewrite (holds_Equals P "owner" (JStr user))
    by (intros x; apply json_eqb_JStr).
  by rewrite get_path_owner.
Qed.


(** ** Availability and the listings *)

(** X16.  After its owner toggles a property, the public listing shows it
    exactly when it was unavailable before and it matches the supplied
    filters; the owner's own listing shows it either way. *)
Theorem toggle_gates_the_public_listing `{RegExpEngine} user id (store : Store)
    P b (q : Query.t) :
  isValidObjectId id = true →
  store !! id = Some P →
  P !! "owner" = Some (JStr user) →
  P !! "isAvailable" = Some (JBool b) →
  let after := (toggleAvailability user id store).2 in
  let P' := <["isAvailable" := JBool (negb b)]> P in
  after !! id = Some P'
  ∧ ((id, P') ∈ matching q after ↔ b = false ∧ matches_supplied q P')
  ∧ (b = true → ∀ Q, (id, Q) ∉ listed (listProperties q after))
  ∧ (id, P') ∈ listing_properties (listMyProperties user after).
Proof.
  intros Hid HP Ho Hb after P'.
  assert (Hn : not_isAvailable P = negb b).
  { unfold not_isAvailable. by rewrite Hb. }
  assert (Hafter : after = <[id := P']> store).
  { subst after P'. rewrite (toggle_owned user id store P Hid HP Ho). cbn.
    by rewrite Hn. }
  assert (HP' : after !! id = Some P')
    by (rewrite Hafter; apply lookup_insert_eq).
  assert (Hflag : P' !! "isAvailable" = Some (JBool (negb b)))
    by (subst P'; apply lookup_insert_eq).
  split; [done |]. split; [| split].
  - rewrite elem_of_matching, Hflag. split.
    + intros (_ & [= Hnb] & Hm). split; [by destruct b | done].
    + intros [-> Hm]. done.
  - intros -> Q Hin. apply listed_matching, elem_of_matching in Hin.
    destruct Hin as (HQ & Havail & _).
    rewrite HP' in HQ. injection HQ as <-. rewrite Hflag in Havail. done.
  - apply elem_of_my_properties. split; [done |].
    subst P'. by rewrite lookup_insert_ne.
Qed.

Lemma toggle_gates_the_public_listing_witness :
  let after := (toggleAvailability alice flat_id one_flat).2 in
  (∀ Q, (flat_id, Q)
        ∉ listed (@listProperties LiteralEngine.engine no_filters after))
  ∧ (flat_id, <["isAvailable" := JBool (negb true)]> flat)
    ∈ listing_properties (@listMyProperties LiteralEngine.engine alice after).
Proof.
  intros after.
  destruct (@toggle_gates_the_public_listing LiteralEngine.engine alice flat_id
              one_flat flat true no_filters)
    as (_ & _ & Hpublic & Hmine);
    [reflexivity | apply lookup_singleton_eq | reflexivity | reflexivity |].
  split; [by apply Hpublic | exact Hmine].
Defined.

(** X17.  Once its owner has deleted a property, no listing shows it: not
    the public one, whatever the query, and not the owner's own. *)
Theorem deleted_property_is_listed_nowhere `{RegExpEngine} user id (store : Store)
    (q : Query.t) Q :
  status (deleteProperty user id store).1 = 200%nat →
  let after := (deleteProperty user id store).2 in
  ((id, Q) ∉ listed (listProperties q after))
  ∧ ((id, Q) ∉ listing_properties (listMyProperties user after)).
Proof.
  intros H200 after.
  destruct (deleteProperty_outcome user id store)
    as [(_ & _ & Hdel) | [Hne _]]; [| done].
  assert (Hgone : after !! id = None).
  { subst after. rewrite Hdel. apply lookup_delete_eq. }
  split.
  - intros Hin. apply listed_matching, elem_of_matching in Hin.
    destruct Hin as (HQ & _). congruence.
  - intros Hin. apply elem_of_my_properties in Hin as [HQ _]. congruence.
Qed.

Lemma deleted_property_is_listed_nowhere_witness :
  let after := (deleteProperty alice flat_id one_flat).2 in
  ((flat_id, flat)
   ∉ listed (@listProperties LiteralEngine.engine no_filters after))
  ∧ ((flat_id, flat)
     ∉ listing_properties (@listMyProperties LiteralEngine.engine alice after)).
Proof.
  apply (@deleted_property_is_listed_nowhere LiteralEngine.engine alice flat_id
           one_flat no_filters flat).
  vm_compute. reflexivity.
Defined.

(** ** Logging in *)

Lemma find_None_iff {A} (f : A → bool) (l : list A) :
  List.find f l = None ↔ ∀ x, x ∈ l → f x = false.
Proof.
  induction l as [| y l IH]; cbn.
  - split; [by intros _ x Hin%elem_of_nil | done].
  - destruct (f y) eqn:Hy.
    + split; [done |]. intros Hall.
      rewrite (Hall y) in Hy by apply list_elem_of_here. done.
    + rewrite IH. split.
      * intros Hall x [-> | Hin]%elem_of_cons; [done | by apply Hall].
      * intros Hall x Hin. apply Hall. by apply list_elem_of_further.
Qed.

Lemma findOne_email_None e users :
  findOne_email e users = None ↔ ∀ u, u ∈ users → User.email u ≠ Some e.
Proof.
  unfold findOne_email. rewrite find_None_iff.
  split; intros Hall u Hin; specialize (Hall u Hin).
  - by apply bool_decide_eq_false in Hall.
  - by apply bool_decide_eq_false.
Qed.

Lemma findOne_mobile_None m users :
  findOne_mobile m users = None ↔ ∀ u, u ∈ users → User.mobile u ≠ Some m.
Proof.
  unfold findOne_mobile. rewrite find_None_iff.
  split; intros Hall u Hin; specialize (Hall u Hin).
  - by apply bool_decide_eq_false in Hall.
  - by apply bool_decide_eq_false.
Qed.

(** X18.  The identifier of a login is looked up in one way only: with an
    [@] in it only the emails are searched, without only the mobile numbers.
    So the request fails as invalid credentials when no user has it in that
    one role, even if a user has it in the other. *)
Theorem login_looks_up_one_role `{Credentials} emailOrMobile password users :
  emailOrMobile ≠ "" →
  password ≠ "" →
  (includes_at emailOrMobile = true →
   (∀ u, u ∈ users → User.email u ≠ Some emailOrMobile) →
   login (Some emailOrMobile) (Some password) users
   = fail 401 "Invalid credentials")
  ∧ (includes_at emailOrMobile = false →
     (∀ u, u ∈ users → User.mobile u ≠ Some emailOrMobile) →
     login (Some emailOrMobile) (Some password) users
     = fail 401 "Invalid credentials").
Proof.
  intros He Hp. unfold login, find_user.
  rewrite (supplied_nonempty _ He), (supplied_nonempty _ Hp).
  split; intros -> Hnone.
  - apply findOne_email_None in Hnone. by rewrite Hnone.
  - apply findOne_mobile_None in Hnone. by rewrite Hnone.
Qed.

Lemma login_looks_up_one_role_witness :
  @login test_credentials (Some "dave@example.com") (Some "battery staple")
    [User.mk bob "Bob" None (Some "dave@example.com") "hash:battery staple"
       "tenant" true "free"]
  = fail 401 "Invalid credentials".
Proof.
  destruct (@login_looks_up_one_role test_credentials "dave@example.com"
              "battery staple"
              [User.mk bob "Bob" None (Some "dave@example.com")
                 "hash:battery staple" "tenant" true "free"])
    as (Hemail & _); [done | done |].
  apply Hemail; [reflexivity |].
  intros u Hin. apply list_elem_of_singleton in Hin as ->. discriminate.
Defined.

(** X19.  For a non-empty identifier and password, a login succeeds exactly
    when the looked-up user exists, the password verifies and the account
    is active; the response then carries that user's public fields and the
    token issued for the user's id. *)
Theorem login_succeeds_exactly_when `{Credentials} emailOrMobile password users :
  emailOrMobile ≠ "" →
  password ≠ "" →
  (status (login (Some emailOrMobile) (Some password) users) = 200%nat
   ↔ ∃ user, find_user emailOrMobile users = Some user
             ∧ comparePassword password (User.password user) = true
             ∧ User.isActive user = true)
  ∧ (∀ user, find_user emailOrMobile users = Some user →
             comparePassword password (User.password user) = true →
             User.isActive user = true →
             login (Some emailOrMobile) (Some password) users
             = mkResponse 200 true (Some "Login successful")
                 (DUser (User._id user) (User.fullName user) (User.email user)
                    (User.mobile user) (User.accountType user)
                    (User.subscription user) (generateToken (User._id user)))).
Proof.
  intros He Hp. unfold login.
  rewrite (supplied_nonempty _ He), (supplied_nonempty _ Hp).
  split.
  - destruct (find_user emailOrMobile users) as [user |]; cbn.
    + destruct (comparePassword password (User.password user)) eqn:Hc; cbn.
      * destruct (User.isActive user) eqn:Ha; cbn.
        -- split; [| done]. intros _. by exists user.
        -- split; [done |]. intros (u & [= <-] & _ & Hf). congruence.
      * split; [done |]. intros (u & [= <-] & Ht & _). congruence.
    + split; [done |]. by intros (u & [=] & _).
  - intros user -> -> ->. done.
Qed.

Lemma login_succeeds_exactly_when_witness :
  @login test_credentials (Some "user@example.com") (Some "correct horse")
    sample_users
  = mkResponse 200 true (Some "Login successful")
      (DUser alice "Alice" (Some "user@example.com") None "owner" "free"
         ("token:" ++ alice)).
Proof.
  destruct (@login_succeeds_exactly_when test_credentials "user@example.com"
              "correct horse" sample_users) as (_ & Hok); [done | done |].
  apply (Hok (User.mk alice "Alice" (Some "user@example.com") None
                "hash:correct horse" "owner" true "free")); reflexivity.
Defined.

(** ** Signing up *)

(** The two outcomes of a signup: a 201, with one user appended whose
    identity is the supplied one; or another status, with the users as they
    were. *)
Lemma signup_outcome `{UserModel, Credentials} newId body users :
  (∃ fullName password accountType user,
     supplied (Signup.fullName body) = Some fullName
     ∧ supplied (Signup.password body) = Some password
     ∧ supplied (Signup.accountType body) = Some accountType
     ∧ (is_Some (supplied (Signup.email body))
        ∨ is_Some (supplied (Signup.mobile body)))
     ∧ (∀ e, supplied (Signup.email body) = Some e →
             findOne_email e users = None)
     ∧ (∀ m, supplied (Signup.mobile body) = Some m →
             findOne_mobile m users = None)
     ∧ user = User.mk newId fullName (supplied (Signup.email body))
                (supplied (Signup.mobile body)) (hashPassword password)
                accountType initial_isActive initial_subscription
     ∧ signup newId body users
       = (mkResponse 201 true (Some "Account created successfully")
            (DUser newId fullName (supplied (Signup.email body))
               (supplied (Signup.mobile body)) accountType
               initial_subscription (generateToken newId)),
          (users ++ [user])%list))
  ∨ (status (signup newId body users).1 ≠ 201%nat
     ∧ (signup newId body users).2 = users).
Proof.
  unfold signup, signup_try, User_create.
  destruct (supplied (Signup.fullName body)) as [fullName |]; [| by right].
  destruct (supplied (Signup.password body)) as [password |]; [| by right].
  destruct (supplied (Signup.accountType body)) as [accountType |];
    [| by right].
  destruct (supplied (Signup.email body)) as [e |] eqn:He;
    destruct (supplied (Signup.mobile body)) as [m |] eqn:Hm; cbn;
    try by right.
  - destruct (findOne_email e users) eqn:Hfe; [by right |].
    destruct (findOne_mobile m users) eqn:Hfm; [by right |].
    destruct (user_valid _) eqn:Hv; cbn; [| by right].
    left. eexists fullName, password, accountType, _.
    repeat split; try done; try by intros ? [= <-].
    left. by eexists.
  - destruct (findOne_email e users) eqn:Hfe; [by right |].
    destruct (user_valid _) eqn:Hv; cbn; [| by right].
    left. eexists fullName, password, accountType, _.
    repeat split; try done; try by intros ? [= <-].
    left. by eexists.
  - destruct (findOne_mobile m users) eqn:Hfm; [by right |].
    destruct (user_valid _) eqn:Hv; cbn; [| by right].
    left. eexists fullName, password, accountType, _.
    repeat split; try done; try by intros ? [= <-].
    right. by eexists.
Qed.

(** X20.  A signup changes the users only when it answers 201, and then it
    appends exactly one user, who has the requested name, account type and
    identity (an empty email or mobile number counting as none) and the id
    reported in the response; the users registered before are untouched. *)
Theorem signup_appends_one_user `{UserModel, Credentials} newId body users :
  (status (signup newId body users).1 ≠ 201%nat →
   (signup newId body users).2 = users)
  ∧ (status (signup newId body users).1 = 201%nat →
     ∃ user token,
       (signup newId body users).2 = (users ++ [user])%list
       ∧ Some (User.fullName user) = supplied (Signup.fullName body)
       ∧ Some (User.accountType user) = supplied (Signup.accountType body)
       ∧ User.email user = supplied (Signup.email body)
       ∧ User.mobile user = supplied (Signup.mobile body)
       ∧ data (signup newId body users).1
         = DUser (User._id user) (User.fullName user) (User.email user)
             (User.mobile user) (User.accountType user)
             (User.subscription user) token).
Proof.
  destruct (signup_outcome newId body users)
    as [(fullName & password & accountType & user & Hn & Hp & Ha & _ & _ & _
         & -> & ->) | [Hne Hsame]].
  - split; [by cbn |]. intros _. eexists _, _. cbn.
    repeat split; done.
  - split; [done |]. intros H201. done.
Qed.

Lemma signup_appends_one_user_witness :
  ∃ user token,
    (@signup test_user_model test_credentials carol_id carol_signup
       sample_users).2 = (sample_users ++ [user])%list
    ∧ User.email user = Some "carol@example.com"
    ∧ User.mobile user = None
    ∧ data (@signup test_user_model test_credentials carol_id carol_signup
              sample_users).1
      = DUser (User._id user) (User.fullName user) (User.email user)
          (User.mobile user) (User.accountType user) (User.subscription user)
          token.
Proof.
  destruct (@signup_appends_one_user test_user_model test_credentials carol_id
              carol_signup sample_users) as (_ & H201).
  destruct H201 as (user & token & Husers & _ & _ & Hemail & Hmobile & Hdata);
    [reflexivity |].
  exists user, token. by repeat split.
Defined.

(** X21.  A signup is rejected with a 400, in this order of precedence: when
    the full name, the password or the account type is missing; when neither
    an email nor a mobile number is given; when a user already has the
    email; when a user already has the mobile number.  The message names the
    first of these that applies and the users are left as they were. *)
Theorem signup_rejections `{UserModel, Credentials} newId body users :
  let complete :=
    truthy_str (Signup.fullName body) && truthy_str (Signup.password body)
    && truthy_str (Signup.accountType body) in
  (complete = false →
   signup newId body users
   = (fail 400 "Please provide full name, password, and account type", users))
  ∧ (complete = true →
     supplied (Signup.email body) = None →
     supplied (Signup.mobile body) = None →
     signup newId body users
     = (fail 400 "Please provide either email or mobile number", users))
  ∧ (∀ e existing,
       complete = true →
       supplied (Signup.email body) = Some e →
       findOne_email e users = Some existing →
       signup newId body users
       = (fail 400 "User with this email already exists", users))
  ∧ (∀ m existing,
       complete = true →
       (∀ e, supplied (Signup.email body) = Some e →
             findOne_email e users = None) →
       supplied (Signup.mobile body) = Some m →
       findOne_mobile m users = Some existing →
       signup newId body users
       = (fail 400 "User with this mobile number already exists", users)).
Proof.
  intros complete. subst complete. unfold signup, signup_try, truthy_str.
  destruct (Signup.fullName body) as [n |]; cbn [supplied];
    [destruct (String.eqb n "") |]; cbn [negb andb].
  all: try (repeat split; try done).
  all: destruct (Signup.password body) as [p |]; cbn [supplied];
    [destruct (String.eqb p "") |]; cbn [negb andb].
  all: try (repeat split; try done).
  all: destruct (Signup.accountType body) as [a |]; cbn [supplied];
    [destruct (String.eqb a "") |]; cbn [negb andb].
  all: try (repeat split; try done).
  - intros _ -> ->. done.
  - intros e existing _ -> Hfe. cbn. rewrite Hfe.
    by destruct (supplied (Signup.mobile body)).
  - intros m existing _ Hnone -> Hfm.
    destruct (supplied (Signup.email body)) as [e |]; cbn.
    + rewrite (Hnone e eq_refl). cbn. by rewrite Hfm.
    + by rewrite Hfm.
Qed.

Lemma signup_rejections_witness :
  @signup test_user_model test_credentials carol_id
    (Signup.mk (Some "Carol") (Some "user@example.com") (Some "01700000000")
       (Some "tr0ub4dor") (Some "owner")) sample_users
  = (fail 400 "User with this email already exists", sample_users)
  ∧ @signup test_user_model test_credentials carol_id
      (Signup.mk (Some "Carol") (Some "") None (Some "tr0ub4dor") (Some "owner"))
      sample_users
    = (fail 400 "Please provide either email or mobile number", sample_users).
Proof.
  split.
  - edestruct (@signup_rejections test_user_model test_credentials carol_id
                 (Signup.mk (Some "Carol") (Some "user@example.com")
                    (Some "01700000000") (Some "tr0ub4dor") (Some "owner"))
                 sample_users) as (_ & _ & Hemail & _).
    eapply Hemail; reflexivity.
  - edestruct (@signup_rejections test_user_model test_credentials carol_id
                 (Signup.mk (Some "Carol") (Some "") None (Some "tr0ub4dor")
                    (Some "owner"))
                 sample_users) as (_ & Hneither & _).
    apply Hneither; reflexivity.
Defined.

Lemma omap_snoc {A B} (f : A → option B) (l : list A) x :
  omap f (l ++ [x])%list = (omap f l ++ from_option (λ y, [y]) [] (f x))%list.
Proof.
  rewrite omap_app. cbn. by destruct (f x).
Qed.

Lemma NoDup_snoc_fresh {A} (l : list A) (o : option A) :
  NoDup l →
  (∀ y, o = Some y → y ∉ l) →
  NoDup (l ++ from_option (λ y, [y]) [] o)%list.
Proof.
  intros Hl Hfresh. destruct o as [y |]; cbn; [| by rewrite app_nil_r].
  apply NoDup_app. split; [done |]. split; [| apply NoDup_singleton].
  intros x Hx Hin. apply list_elem_of_singleton in Hin as ->.
  by apply (Hfresh y).
Qed.

(** X22.  Signup keeps identities unique: if no two users share an email and
    no two share a mobile number before a signup, the same holds after it,
    whatever the request. *)
Theorem signup_keeps_identities_unique `{UserModel, Credentials} newId body users :
  unique_identities users →
  unique_identities (signup newId body users).2.
Proof.
  intros [Hemails Hmobiles].
  destruct (signup_outcome newId body users)
    as [(fullName & password & accountType & user & _ & _ & _ & _ & Hfe & Hfm
         & -> & ->) | [_ ->]]; [| done].
  cbn [snd]. unfold unique_identities. rewrite !omap_snoc. cbn [User.email User.mobile].
  split; apply NoDup_snoc_fresh; try done.
  - intros e He Hin. apply list_elem_of_omap in Hin as (u & Hu & Heq).
    specialize (Hfe e He).
    by apply (proj1 (findOne_email_None e users) Hfe u Hu).
  - intros m Hm Hin. apply list_elem_of_omap in Hin as (u & Hu & Heq).
    specialize (Hfm m Hm).
    by apply (proj1 (findOne_mobile_None m users) Hfm u Hu).
Qed.

Lemma signup_keeps_identities_unique_witness :
  unique_identities
    (@signup test_user_model test_credentials carol_id carol_signup
       sample_users).2.
Proof.
  apply (@signup_keeps_identities_unique test_user_model test_credentials).
  split; cbn.
  - apply NoDup_singleton.
  - apply NoDup_singleton.
Defined.

Lemma supplied_Some_nonempty p s : supplied p = Some s → s ≠ "".
Proof.
  destruct p as [x |]; cbn; [| done].
  destruct (String.eqb_spec x "") as [-> | Hne]; [done |]. by intros [= <-].
Qed.

Lemma find_snoc_fresh {A} (f : A → bool) (l : list A) x :
  List.find f l = None → f x = true → List.find f (l ++ [x])%list = Some x.
Proof.
  induction l as [| y l IH]; cbn; intros Hnone Hx; [by rewrite Hx |].
  destruct (f y); [done | by apply IH].
Qed.

(** X23.  Signup and login agree: when the password check accepts a password
    against its stored form and new accounts are active, a user who has just
    signed up with an email that contains an [@], or with a mobile number
    that contains none, can log in with that identifier and the same
    password, and is answered with the user data of the signup response
    (and a token, which need not be the one of the signup). *)
Theorem signup_then_login `{UserModel, Credentials} newId body users
    identifier password :
  (∀ p, comparePassword p (hashPassword p) = true) →
  initial_isActive = true →
  status (signup newId body users).1 = 201%nat →
  supplied (Signup.password body) = Some password →
  (supplied (Signup.email body) = Some identifier
   ∧ includes_at identifier = true)
  ∨ (supplied (Signup.mobile body) = Some identifier
     ∧ includes_at identifier = false) →
  let users' := (signup newId body users).2 in
  status (login (Some identifier) (Some password) users') = 200%nat
  ∧ ∃ id fullName email mobile accountType subscription token token',
      data (signup newId body users).1
      = DUser id fullName email mobile accountType subscription token
      ∧ data (login (Some identifier) (Some password) users')
        = DUser id fullName email mobile accountType subscription token'.
Proof.
  intros Hverify Hactive H201 Hp Hid users'.
  destruct (signup_outcome newId body users)
    as [(fullName & password' & accountType & user & _ & Hp' & _ & _ & Hfe
         & Hfm & Huser & Heq) | [Hne _]]; [| done].
  rewrite Hp in Hp'. injection Hp' as <-.
  assert (Husers : users' = (users ++ [user])%list)
    by (subst users'; by rewrite Heq).
  assert (Hne : identifier ≠ "").
  { destruct Hid as [[Hs _] | [Hs _]]; by apply supplied_Some_nonempty in Hs. }
  assert (Hpne : password ≠ "") by (by apply supplied_Some_nonempty in Hp).
  assert (Hfound : find_user identifier users' = Some user).
  { rewrite Husers. unfold find_user.
    destruct Hid as [[Hs ->] | [Hs ->]].
    - apply find_snoc_fresh; [by apply Hfe |].
      apply bool_decide_eq_true. rewrite Huser. cbn. done.
    - apply find_snoc_fresh; [by apply Hfm |].
      apply bool_decide_eq_true. rewrite Huser. cbn. done. }
  unfold login. rewrite (supplied_nonempty _ Hne), (supplied_nonempty _ Hpne).
  rewrite Hfound. cbn zeta.
  assert (Hpw : comparePassword password (User.password user) = true)
    by (rewrite Huser; apply Hverify).
  assert (Hact : User.isActive user = true) by (by rewrite Huser).
  rewrite Hpw, Hact. cbn. split; [done |].
  rewrite Heq, Huser. cbn. by do 8 eexists.
Qed.

Lemma signup_then_login_witness :
  let users' := (@signup test_user_model test_credentials carol_id carol_signup
                   sample_users).2 in
  status (@login test_credentials (Some "carol@example.com") (Some "tr0ub4dor")
            users') = 200%nat.
Proof.
  intros users'.
  apply (@signup_then_login test_user_model test_credentials carol_id
           carol_signup sample_users "carol@example.com" "tr0ub4dor").
  - intros p. apply String.eqb_refl.
  - reflexivity.
  - reflexivity.
  - reflexivity.
  - left. split; reflexivity.
Defined.

(** ** The rent filter *)

(** X24.  When a lower or an upper rent bound is supplied (or both), the
    result set holds exactly the available properties whose rent amount is a
    number within the supplied bounds, the bounds included; a property
    without a numeric rent amount is never in it. *)
Theorem rent_bounds_are_inclusive `{RegExpEngine} minRent maxRent (store : Store)
    id P :
  is_Some minRent ∨ is_Some maxRent →
  (id, P) ∈ matching (renting minRent maxRent) store
  ↔ store !! id = Some P
    ∧ P !! "isAvailable" = Some (JBool true)
    ∧ ∃ n, get_path P "rent.amount" = Some (JNum n)
           ∧ (∀ a, minRent = Some a → a ≤ n)
           ∧ (∀ b, maxRent = Some b → n ≤ b).
Proof.
  intros Hsome. rewrite elem_of_matching.
  unfold matches_supplied, renting. cbn.
  split.
  - intros (HP & Havail & _ & _ & _ & _ & Hmin & Hmax & _).
    split; [done |]. split; [done |].
    destruct Hsome as [[a ->] | [b ->]].
    + destruct (Hmin a eq_refl) as (n & Hn & Hle). exists n.
      split; [done |]. split; [by intros ? [= <-] |].
      intros b Hb. destruct (Hmax b Hb) as (n' & Hn' & Hle'). congruence.
    + destruct (Hmax b eq_refl) as (n & Hn & Hle). exists n.
      split; [done |]. split; [| by intros ? [= <-]].
      intros a Ha. destruct (Hmin a Ha) as (n' & Hn' & Hle'). congruence.
  - intros (HP & Havail & n & Hn & Hmin & Hmax).
    split; [done |]. split; [done |].
    repeat split; try (by intros ? [=]).
    + intros a Ha. exists n. split; [done | by apply Hmin].
    + intros b Hb. exists n. split; [done | by apply Hmax].
Qed.

Lemma rent_bounds_are_inclusive_witness :
  (flat_id, flat)
  ∈ @matching LiteralEngine.engine (renting (Some 3000) (Some 3000)) one_flat.
Proof.
  apply (@rent_bounds_are_inclusive LiteralEngine.engine (Some 3000)
           (Some 3000) one_flat flat_id flat).
  - left. by eexists.
  - split; [apply lookup_singleton_eq |]. split; [reflexivity |].
    exists 3000. split; [reflexivity |].
    split; intros ? [= <-]; lia.
Defined.

(** ** Required members of the JSON-body create *)

(** X25.  The JSON-body create answers 400 exactly when the title, the
    description, the property type, the location, the rent or the contact is
    missing from the body or falsy; a request answered 400 persists
    nothing. *)
Theorem json_create_checks_required_members `{Schema} env user body
    (store : Store) :
  let complete :=
    truthy_opt (member "title" body) && truthy_opt (member "description" body)
    && truthy_opt (member "propertyType" body)
    && truthy_opt (member "location" body) && truthy_opt (member "rent" body)
    && truthy_opt (member "contact" body) in
  (status (createPropertyFromJson env user body store).1 = 400%nat
   ↔ complete = false)
  ∧ (complete = false →
     createPropertyFromJson env user body store
     = (fail 400 "Please provide all required fields", store)).
Proof.
  intros complete. split; [| by apply createPropertyFromJson_missing_field].
  split.
  - subst complete. intros H400.
    destruct (_ && _) eqn:Hall; [| done]. exfalso.
    revert H400. unfold createPropertyFromJson, createPropertyFromJson_try.
    repeat (apply andb_true_iff in Hall as [Hall ?]).
    replace (truthy_opt (member "title" body)) with true by done.
    replace (truthy_opt (member "description" body)) with true by done.
    replace (truthy_opt (member "propertyType" body)) with true by done.
    replace (truthy_opt (member "location" body)) with true by done.
    replace (truthy_opt (member "rent" body)) with true by done.
    replace (truthy_opt (member "contact" body)) with true by done.
    cbn [negb orb].
    by destruct (Property_create _ _ _) as [[[id P] st] | e].
  - intros Hmissing.
    by rewrite (createPropertyFromJson_missing_field env user body store
                  Hmissing).
Qed.

Lemma json_create_checks_required_members_witness :
  @createPropertyFromJson typed_schema sample_env alice
    [("title", JStr ""); ("description", JStr "Two rooms with a balcony")] ∅
  = (fail 400 "Please provide all required fields", ∅).
Proof.
  edestruct (@json_create_checks_required_members typed_schema sample_env alice
               [("title", JStr "");
                ("description", JStr "Two rooms with a balcony")] ∅)
    as (_ & Hmissing).
  apply Hmissing. reflexivity.
Defined.

(** ** The ids of the collection *)

